(** * MATRXe billing service: credits, deferred invoices, overdue sweep, payments

    A shallow embedding of [backend/app/services/billing_service.py]
    (class [BillingService]) together with the settings it reads from
    [backend/app/config/settings.py].

    Conventions of the embedding.
    - Python [int] is [Z]; a [date] is the number of its day (a [Z]), so
      that [d + timedelta(days=n)] is [d + n] and [(a - b).days] is [a - b].
    - Python [float] is an IEEE 754 binary64 number, modelled bit for bit by
      [spec_float] with precision 53 and maximal exponent 1024; every
      operation rounds to nearest, ties to even, as the hardware does.
    - Python [Decimal] is an exact rational [Q]. The default decimal context
      keeps 28 significant digits; products within that size are exact.
    - The database session is an explicit value of type [DB]; a method takes
      the database and returns its result, the database after the call and
      the mails handed to the mail service. A path that returns before
      [commit], or that ends in [rollback], gives the database back as it was.
    - What the service reads from its surroundings (the clock, fresh
      [uuid4] values, the invoice number) is an explicit argument.
    - The mail service, the logger and [commit] are taken not to raise.
      The money columns hold floats: the service assigns [float(..)] to
      them and mixes them with float literals in its arithmetic. *)

From Stdlib Require Import ZArith QArith Floats.SpecFloat.
From stdpp Require Import base option list strings gmap.
From stdpp Require Import sorting.

#[local] Open Scope Z_scope.

(** ** Binary64 floating point *)

Module Float64.

Definition prec : Z := 53.
Definition emax : Z := 1024.

Definition float : Type := spec_float.

Definition add : float -> float -> float := SFadd prec emax.
Definition sub : float -> float -> float := SFsub prec emax.
Definition mul : float -> float -> float := SFmul prec emax.
Definition div : float -> float -> float := SFdiv prec emax.
Definition neg : float -> float := SFopp.
Definition abs : float -> float := SFabs.

(** [x < y], [x <= y] and [x > y]; each is false when an operand is NaN. *)
Definition ltb : float -> float -> bool := SFltb.
Definition leb : float -> float -> bool := SFleb.
Definition gtb (x y : float) : bool := SFltb y x.

Definition zero : float := S754_zero false.

Definition is_nan (x : float) : bool :=
  match x with S754_nan => true | _ => false end.

Definition is_zero (x : float) : bool :=
  match x with S754_zero _ => true | _ => false end.

(** [float(z)] for an [int]: the nearest binary64 number; Python raises
    [OverflowError] where that would be an infinity. *)
Definition of_Z (z : Z) : option float :=
  match binary_normalize prec emax z 0 false with
  | S754_infinity _ => None
  | x => Some x
  end.

(** The binary64 number nearest to a rational: what Python reads from a
    decimal literal, and what [float(d)] gives for a [Decimal] [d]. *)
Definition of_Q (q : Q) : float :=
  let round (s : bool) (n : positive) : float :=
    let '(m, e, l) :=
      SFdiv_core_binary prec emax (Zpos n) 0 (Zpos (Qden q)) 0 in
    binary_round_aux prec emax s m e l in
  match Qnum q with
  | Z0 => S754_zero false
  | Zpos n => round false n
  | Zneg n => round true n
  end.

(** [x or 0.0]: a float is falsy exactly when it is a zero. *)
Definition or_zero (x : float) : float := if is_zero x then zero else x.

(** The exponent of a finite number is not below the least exponent of
    the format. Every valid binary64 number is so. *)
Definition above_emin (x : float) : Prop :=
  match x with
  | S754_finite _ _ e => emin prec emax <= e
  | _ => True
  end.

Definition valid (x : float) : Prop := valid_binary prec emax x = true.

(** What rounding a positive mantissa above the least exponent gives: a
    finite number of that sign above the least exponent, or an infinity. *)
Definition rounded (s : bool) (x : float) : Prop :=
  (exists m e, x = S754_finite s m e /\ emin prec emax <= e)
  \/ x = S754_infinity s.

End Float64.

Abbreviation float := Float64.float.

(** ** Settings *)

(** The fields of [Settings] that the billing service reads. [CREDIT_PRICE]
    is a float in the source; it is kept here as the decimal that [str]
    prints for it (which is what [Decimal(str(settings.CREDIT_PRICE))]
    reads), and [credit_price_float] is the float itself: the text that
    [str] prints for a float reads back as that float. *)
Record Settings : Type := {
  DEFAULT_CURRENCY : string;
  CREDIT_PRICE : Q;
  TRIAL_CREDITS : Z;
  VOICE_MINUTE_COST : Z;
  CHAT_MESSAGE_COST : Z;
  FACE_PROCESSING_COST : Z;
  DEFERRED_PAYMENT_GRACE_DAYS : Z;
  MIN_DEFERRED_AMOUNT : float;
  LATE_FEE_PERCENTAGE : float
}.

Definition credit_price_float (settings : Settings) : float :=
  Float64.of_Q (CREDIT_PRICE settings).

(** The defaults of [settings.py]. *)
Definition default_settings : Settings := {|
  DEFAULT_CURRENCY := "USD";
  CREDIT_PRICE := 1 # 100;
  TRIAL_CREDITS := 1000;
  VOICE_MINUTE_COST := 10;
  CHAT_MESSAGE_COST := 1;
  FACE_PROCESSING_COST := 5;
  DEFERRED_PAYMENT_GRACE_DAYS := 7;
  MIN_DEFERRED_AMOUNT := Float64.of_Q (10 # 1);
  LATE_FEE_PERCENTAGE := Float64.of_Q (5 # 1)
|}.

(** ** Data model *)

Definition uuid : Type := Z.
Definition date : Type := Z.
Definition datetime : Type := Z.

(** [datetime.date()], with a [datetime] counted in seconds. *)
Definition date_of (t : datetime) : date := t / 86400.

(** The clock at one call: [date.today()] (local) and [datetime.utcnow()]. *)
Record Clock : Type := {
  today : date;
  utcnow : datetime
}.

(** Modelled from the spec: the class [User] of [app/models/user.py], which
    is not under src/. These are the columns the billing service reads or
    writes (section 3 of the spec, CreditAccount). *)
Module User.
Record t : Type := mk {
  id : uuid;
  total_credits : Z;
  used_credits : Z;
  total_spent : float;
  deferred_payment_balance : float;
  subscription_tier : string;
  trial_end_date : option date;
  last_payment_date : option date;
  next_payment_due_date : option date;
  created_at : datetime
}.
End User.

(** Modelled from the spec: the class [CreditTransaction] of
    [app/models/billing.py], which is not under src/ (section 3 of the spec,
    LedgerEntry). An optional column that a constructor call leaves out is
    [None]; a price that it leaves out is [0.0]. The description text and
    the time stamp of a row are not modelled. *)
Module CreditTransaction.
Record t : Type := mk {
  id : uuid;
  user_id : uuid;
  transaction_type : string;
  amount : float;
  credits_used : option Z;
  credits_granted : option Z;
  service_type : option string;
  resource_id : option uuid;
  payment_method : option string;
  payment_reference : option string;
  unit_price : float;
  total_price : float;
  status : string;
  metadata : list (string * string)
}.
End CreditTransaction.

(** Modelled from the spec: the class [DeferredPayment] of
    [app/models/billing.py], which is not under src/ (section 3 of the spec,
    Invoice). A new row has [overdue_days = 0], [late_fee = 0.0],
    [is_overdue = False] and no payment data. The description text and the
    [usage_summary] report (a grouping of the period's ledger rows that no
    billing rule reads) are not modelled. *)
Module DeferredPayment.
Record t : Type := mk {
  id : uuid;
  user_id : uuid;
  invoice_number : string;
  total_amount : float;
  currency : string;
  billing_period_start : date;
  billing_period_end : date;
  status : string;
  payment_due_date : date;
  overdue_days : Z;
  is_overdue : bool;
  late_fee : float;
  payment_date : option date;
  payment_method : option string;
  payment_reference : option string;
  paid_at : option datetime
}.
End DeferredPayment.

(** The database: users by primary key, the two billing tables in the order
    their rows were added. *)
Record DB : Type := {
  users : gmap uuid User.t;
  transactions : list CreditTransaction.t;
  invoices : list DeferredPayment.t
}.

(** [db.get(User, user_id)] and [db.get(DeferredPayment, invoice_id)]. *)
Definition get_user (db : DB) (user_id : uuid) : option User.t :=
  users db !! user_id.

Definition get_invoice (db : DB) (invoice_id : uuid)
  : option DeferredPayment.t :=
  List.find (fun inv => DeferredPayment.id inv =? invoice_id) (invoices db).

(** Attribute writes on a loaded row reach the table at [commit]. *)
Definition put_user (db : DB) (user_id : uuid) (user : User.t) : DB :=
  {| users := <[user_id := user]> (users db);
     transactions := transactions db;
     invoices := invoices db |}.

Definition put_invoice (db : DB) (invoice : DeferredPayment.t) : DB :=
  {| users := users db;
     transactions := transactions db;
     invoices :=
       List.map (fun inv =>
                   if DeferredPayment.id inv =? DeferredPayment.id invoice
                   then invoice else inv)
                (invoices db) |}.

(** [db.add(transaction)] and [db.add(invoice)]. *)
Definition add_transaction (db : DB) (txn : CreditTransaction.t) : DB :=
  {| users := users db;
     transactions := transactions db ++ [txn];
     invoices := invoices db |}.

Definition add_invoice (db : DB) (invoice : DeferredPayment.t) : DB :=
  {| users := users db;
     transactions := transactions db;
     invoices := invoices db ++ [invoice] |}.

(** ** Results *)

(** The failure dictionaries of the service, by their [error] text:
    "User not found", "Insufficient credits" (with [available] and
    [required]), "Minimum amount not reached" (with [current_balance]),
    "Invoice not found", "Amount mismatch. Expected: .., Got: ..", and
    [str(e)] for an exception caught by the method's [except] clause. *)
Inductive BillingError : Type :=
  | UserNotFound
  | InsufficientCredits (available : Z) (required : Q)
  | MinimumNotReached (current_balance : float)
  | InvoiceNotFound
  | AmountMismatch (expected got : float)
  | Raised.

(** The calls made on [EmailService]. *)
Inductive Mail : Type :=
  | send_credits_added_notification
      (user : uuid) (credits_added total_credits : Z) (amount_paid : float)
  | send_invoice_email
      (user : uuid) (invoice_number : string) (amount : float)
      (currency : string) (due_date period_start period_end : date)
  | send_payment_confirmation
      (user : uuid) (invoice_number : string) (amount : float)
      (currency payment_method : string) (payment_date : date)
  | send_overdue_reminder
      (user : uuid) (invoice_number : string) (amount : float)
      (currency : string) (overdue_days : Z) (due_date : date).

(** What a call leaves behind: its return value, the database, the mails. *)
Record Outcome (R : Type) : Type := {
  returned : BillingError + R;
  db_after : DB;
  mails : list Mail
}.
Arguments returned {R} _.
Arguments db_after {R} _.
Arguments mails {R} _.

Definition fails {R : Type} (db : DB) (e : BillingError) : Outcome R :=
  {| returned := inl e; db_after := db; mails := [] |}.

Definition succeeded {R : Type} (o : Outcome R) : bool :=
  match returned o with inr _ => true | inl _ => false end.

(** ** Decimal helpers *)

(** [x < y] on decimals, and [int(d)], which drops the fraction. *)
Definition Qltb (x y : Q) : bool := negb (Qle_bool y x).

Definition int_of_decimal (d : Q) : Z := Z.quot (Qnum d) (Zpos (Qden d)).

(** ** The service *)

Module BillingService.

(** The pricing table built by [__init__], in credits. [per_token] is the
    float 0.1, read as the decimal 0.1. *)
Definition pricing (settings : Settings) : gmap string (gmap string Q) :=
  {[ "voice_processing" :=
       {[ "per_minute" := inject_Z (VOICE_MINUTE_COST settings);
          "per_character" := 1%Q;
          "training" := 100%Q ]};
     "chat_processing" :=
       {[ "per_message" := inject_Z (CHAT_MESSAGE_COST settings);
          "per_token" := (1 # 10)%Q ]};
     "face_processing" :=
       {[ "per_image" := inject_Z (FACE_PROCESSING_COST settings);
          "training" := 200%Q;
          "animation" := 50%Q ]};
     "storage" :=
       {[ "per_gb_per_month" := 100%Q;
          "per_file" := 1%Q ]};
     "tasks" :=
       {[ "per_task_execution" := 5%Q;
          "per_scheduled_task" := 10%Q ]} ]}.

(** [_is_trial_active] *)
Definition _is_trial_active (clock : Clock) (user : User.t) : bool :=
  match User.trial_end_date user with
  | None => false
  | Some trial_end => date_of (utcnow clock) <=? trial_end
  end.

(** [_get_billing_period_start] *)
Definition _get_billing_period_start (user : User.t) : date :=
  match User.last_payment_date user with
  | Some d => d
  | None =>
      match User.trial_end_date user with
      | Some d => d + 1
      | None => date_of (User.created_at user)
      end
  end.

(** [_calculate_billing_period] *)
Definition _calculate_billing_period (clock : Clock) (user : User.t)
  : date * date :=
  (_get_billing_period_start user, today clock - 1).

(** The rows a query [status IN ("pending", "overdue")] selects. *)
Definition is_unpaid (inv : DeferredPayment.t) : bool :=
  String.eqb (DeferredPayment.status inv) "pending"
  || String.eqb (DeferredPayment.status inv) "overdue".

Definition unpaid_invoices (db : DB) (user_id : uuid)
  : list DeferredPayment.t :=
  List.filter
    (fun inv => (DeferredPayment.user_id inv =? user_id) && is_unpaid inv)
    (invoices db).

(** SQL [SUM] over a float column: NULL for no row, else the rows added
    up one after the other, here in the order of the table. *)
Definition sql_sum (xs : list float) : option float :=
  match xs with
  | [] => None
  | x :: rest => Some (List.fold_left Float64.add rest x)
  end.

(** [_calculate_deferred_balance] *)
Definition _calculate_deferred_balance (db : DB) (user_id : uuid) : float :=
  match get_user db user_id with
  | None => Float64.zero
  | Some user =>
      let invoice_balance :=
        match sql_sum (List.map DeferredPayment.total_amount
                                (unpaid_invoices db user_id)) with
        | None => Float64.zero
        | Some s => Float64.or_zero s
        end in
      Float64.add (User.deferred_payment_balance user) invoice_balance
  end.

(** [get_user_credits]; [current_period_usage] is left out. *)
Record Credits : Type := {
  credits_user_id : uuid;
  credits_total_credits : Z;
  credits_used_credits : Z;
  available_credits : Z;
  deferred_balance : float;
  credits_trial_end_date : option date;
  is_trial_active : bool;
  credit_price : float;
  credits_currency : string
}.

Definition get_user_credits (settings : Settings) (clock : Clock) (db : DB)
    (user_id : uuid) : BillingError + Credits :=
  match get_user db user_id with
  | None => inl UserNotFound
  | Some user =>
      inr {| credits_user_id := user_id;
             credits_total_credits := User.total_credits user;
             credits_used_credits := User.used_credits user;
             available_credits :=
               User.total_credits user - User.used_credits user;
             deferred_balance := _calculate_deferred_balance db user_id;
             credits_trial_end_date := User.trial_end_date user;
             is_trial_active := _is_trial_active clock user;
             credit_price := credit_price_float settings;
             credits_currency := DEFAULT_CURRENCY settings |}
  end.

(** The [deferred_balance] entry of [get_user_credits]. *)
Definition reported_deferred_balance (settings : Settings) (clock : Clock)
    (db : DB) (user_id : uuid) : option float :=
  match get_user_credits settings clock db user_id with
  | inr credits => Some (deferred_balance credits)
  | inl _ => None
  end.

(** The amounts that [_calculate_deferred_balance] adds up for an account
    are binary64 numbers, as every Python float is. *)
Definition valid_amounts (db : DB) (user_id : uuid) : bool :=
  match get_user db user_id with
  | Some user =>
      valid_binary Float64.prec Float64.emax
        (User.deferred_payment_balance user)
  | None => true
  end
  && List.forallb
       (fun inv => valid_binary Float64.prec Float64.emax
                     (DeferredPayment.total_amount inv))
       (unpaid_invoices db user_id).

(** [deduct_credits] *)
Record Deducted : Type := {
  deducted_transaction_id : uuid;
  credits_deducted : Q;
  remaining_credits : Z;
  deducted_deferred_balance : float
}.

Definition deduct_credits (settings : Settings) (clock : Clock)
    (new_id : uuid) (db : DB) (user_id : uuid) (service_type : string)
    (amount : Q) (resource_id : option uuid)
    (metadata : option (list (string * string))) : Outcome Deducted :=
  match get_user db user_id with
  | None => fails db UserNotFound
  | Some user =>
      let available_credits :=
        User.total_credits user - User.used_credits user in
      if Qltb (inject_Z available_credits) amount
         && negb (_is_trial_active clock user
                  && (User.used_credits user <? TRIAL_CREDITS settings))
      then fails db (InsufficientCredits available_credits amount)
      else
        let price := Float64.of_Q (amount * CREDIT_PRICE settings) in
        let transaction :=
          {| CreditTransaction.id := new_id;
             CreditTransaction.user_id := user_id;
             CreditTransaction.transaction_type := "usage";
             CreditTransaction.amount :=
               Float64.neg (Float64.of_Q amount);
             CreditTransaction.credits_used :=
               Some (int_of_decimal amount);
             CreditTransaction.credits_granted := None;
             CreditTransaction.service_type := Some service_type;
             CreditTransaction.resource_id := resource_id;
             CreditTransaction.payment_method := None;
             CreditTransaction.payment_reference := None;
             CreditTransaction.unit_price := credit_price_float settings;
             CreditTransaction.total_price := price;
             CreditTransaction.status := "completed";
             CreditTransaction.metadata := default [] metadata |} in
        let deferred :=
          if negb (_is_trial_active clock user)
             && String.eqb (User.subscription_tier user) "trial"
          then Float64.add (User.deferred_payment_balance user) price
          else User.deferred_payment_balance user in
        let user' :=
          {| User.id := User.id user;
             User.total_credits := User.total_credits user;
             User.used_credits :=
               User.used_credits user + int_of_decimal amount;
             User.total_spent := Float64.add (User.total_spent user) price;
             User.deferred_payment_balance := deferred;
             User.subscription_tier := User.subscription_tier user;
             User.trial_end_date := User.trial_end_date user;
             User.last_payment_date := User.last_payment_date user;
             User.next_payment_due_date :=
               User.next_payment_due_date user;
             User.created_at := User.created_at user |} in
        {| returned :=
             inr {| deducted_transaction_id := new_id;
                    credits_deducted := amount;
                    remaining_credits :=
                      User.total_credits user' - User.used_credits user';
                    deducted_deferred_balance :=
                      User.deferred_payment_balance user' |};
           db_after := add_transaction (put_user db user_id user') transaction;
           mails := [] |}
  end.

(** [add_credits] *)
Record Added : Type := {
  added_transaction_id : uuid;
  credits_added : Z;
  added_total_credits : Z;
  amount_paid : float
}.

Definition add_credits (settings : Settings) (new_id : uuid) (db : DB)
    (user_id : uuid) (credits_amount : Z) (transaction_type : string)
    (payment_method payment_reference : option string)
    (metadata : option (list (string * string))) : Outcome Added :=
  match get_user db user_id with
  | None => fails db UserNotFound
  | Some user =>
      match Float64.of_Z credits_amount with
      | None => fails db Raised
      | Some credits_float =>
          let amount :=
            Float64.mul credits_float (credit_price_float settings) in
          let transaction :=
            {| CreditTransaction.id := new_id;
               CreditTransaction.user_id := user_id;
               CreditTransaction.transaction_type := transaction_type;
               CreditTransaction.amount := amount;
               CreditTransaction.credits_used := None;
               CreditTransaction.credits_granted := Some credits_amount;
               CreditTransaction.service_type := None;
               CreditTransaction.resource_id := None;
               CreditTransaction.payment_method := payment_method;
               CreditTransaction.payment_reference := payment_reference;
               CreditTransaction.unit_price := credit_price_float settings;
               CreditTransaction.total_price := amount;
               CreditTransaction.status := "completed";
               CreditTransaction.metadata := default [] metadata |} in
          let user' :=
            {| User.id := User.id user;
               User.total_credits := User.total_credits user + credits_amount;
               User.used_credits := User.used_credits user;
               User.total_spent := User.total_spent user;
               User.deferred_payment_balance :=
                 User.deferred_payment_balance user;
               User.subscription_tier := User.subscription_tier user;
               User.trial_end_date := User.trial_end_date user;
               User.last_payment_date := User.last_payment_date user;
               User.next_payment_due_date :=
                 User.next_payment_due_date user;
               User.created_at := User.created_at user |} in
          {| returned :=
               inr {| added_transaction_id := new_id;
                      credits_added := credits_amount;
                      added_total_credits := User.total_credits user';
                      amount_paid := amount |};
             db_after :=
               add_transaction (put_user db user_id user') transaction;
             mails :=
               [send_credits_added_notification
                  user_id credits_amount (User.total_credits user') amount]
          |}
      end
  end.

(** [calculate_service_cost]. The rates are read from the table with the
    fallbacks of the source; [duration] is truthy when given and not 0.
    The quotient [duration / 60] is kept exact. *)
Definition rate (table : gmap string Q) (key : string) (fallback : Q) : Q :=
  default fallback (table !! key).

Definition calculate_service_cost (settings : Settings)
    (service_type : string) (quantity : Z) (duration : option Z)
    (custom_rate : option Q) : Q :=
  match custom_rate with
  | Some custom => (custom * inject_Z quantity)%Q
  | None =>
      let table := default ∅ (pricing settings !! service_type) in
      let truthy :=
        match duration with Some d => negb (d =? 0) | None => false end in
      if String.eqb service_type "voice_processing" && truthy then
        let cost_per_minute := rate table "per_minute" 10%Q in
        let minutes := (inject_Z (default 0%Z duration) / 60)%Q in
        (cost_per_minute * minutes * inject_Z quantity)%Q
      else if String.eqb service_type "chat_processing" then
        (rate table "per_message" 1%Q * inject_Z quantity)%Q
      else if String.eqb service_type "face_processing" then
        (rate table "per_image" 5%Q * inject_Z quantity)%Q
      else if String.eqb service_type "storage" then
        (rate table "per_gb_per_month" 100%Q * inject_Z quantity)%Q
      else if String.eqb service_type "tasks" then
        (rate table "per_task_execution" 5%Q * inject_Z quantity)%Q
      else 0%Q
  end.

(** [generate_deferred_invoice]. The usage report of the period, which the
    method stores in [usage_summary], is left out. [Decimal(str(x))] is the
    shortest decimal that reads back as the float [x]: comparing two such
    decimals is comparing the floats, [float] of it is [x] again, and a NaN
    makes the comparison raise, which the [except] clause turns into a
    failure. *)
Record Invoiced : Type := {
  invoiced_id : uuid;
  invoiced_number : string;
  invoiced_amount : float;
  invoiced_currency : string;
  invoiced_due_date : date;
  invoiced_period : date * date
}.

(** The period of the invoice: the one asked for when both ends are
    given, else the one of [_calculate_billing_period]. *)
Definition requested_period (clock : Clock) (user : User.t)
    (period_start period_end : option date) : date * date :=
  match period_start, period_end with
  | Some s, Some e => (s, e)
  | _, _ => _calculate_billing_period clock user
  end.

Definition generate_deferred_invoice (settings : Settings) (clock : Clock)
    (new_id : uuid) (invoice_number : string) (db : DB) (user_id : uuid)
    (period_start period_end : option date) : Outcome Invoiced :=
  match get_user db user_id with
  | None => fails db UserNotFound
  | Some user =>
      let '(period_start, period_end) :=
        requested_period clock user period_start period_end in
      let total_amount := User.deferred_payment_balance user in
      if Float64.is_nan total_amount
         || Float64.is_nan (MIN_DEFERRED_AMOUNT settings)
      then fails db Raised
      else if Float64.ltb total_amount (MIN_DEFERRED_AMOUNT settings)
      then fails db (MinimumNotReached total_amount)
      else
        let payment_due_date :=
          period_end + DEFERRED_PAYMENT_GRACE_DAYS settings in
        let invoice :=
          {| DeferredPayment.id := new_id;
             DeferredPayment.user_id := user_id;
             DeferredPayment.invoice_number := invoice_number;
             DeferredPayment.total_amount := total_amount;
             DeferredPayment.currency := DEFAULT_CURRENCY settings;
             DeferredPayment.billing_period_start := period_start;
             DeferredPayment.billing_period_end := period_end;
             DeferredPayment.status := "pending";
             DeferredPayment.payment_due_date := payment_due_date;
             DeferredPayment.overdue_days := 0;
             DeferredPayment.is_overdue := false;
             DeferredPayment.late_fee := Float64.zero;
             DeferredPayment.payment_date := None;
             DeferredPayment.payment_method := None;
             DeferredPayment.payment_reference := None;
             DeferredPayment.paid_at := None |} in
        let user' :=
          {| User.id := User.id user;
             User.total_credits := User.total_credits user;
             User.used_credits := User.used_credits user;
             User.total_spent := User.total_spent user;
             User.deferred_payment_balance := Float64.zero;
             User.subscription_tier := User.subscription_tier user;
             User.trial_end_date := User.trial_end_date user;
             User.last_payment_date := User.last_payment_date user;
             User.next_payment_due_date := Some payment_due_date;
             User.created_at := User.created_at user |} in
        {| returned :=
             inr {| invoiced_id := new_id;
                    invoiced_number := invoice_number;
                    invoiced_amount := total_amount;
                    invoiced_currency := DEFAULT_CURRENCY settings;
                    invoiced_due_date := payment_due_date;
                    invoiced_period := (period_start, period_end) |};
           db_after := add_invoice (put_user db user_id user') invoice;
           mails :=
             [send_invoice_email user_id invoice_number total_amount
                (DEFAULT_CURRENCY settings) payment_due_date
                period_start period_end] |}
  end.

(** [process_payment]. [convert_currency] belongs to [app/utils/currency],
    which is not under src/: it is an argument, [None] when it raises. *)
Record Paid : Type := {
  paid_invoice_number : string;
  paid_amount : float;
  paid_currency : string;
  paid_date : date;
  paid_status : string
}.

(** The tolerance: the float literal [0.01]. *)
Definition tolerance : float := Float64.of_Q (1 # 100).

(** The attribute writes on a matched invoice, and the ledger row that
    records the payment. *)
Definition mark_paid (clock : Clock) (payment_method payment_reference : string)
    (invoice : DeferredPayment.t) : DeferredPayment.t :=
  {| DeferredPayment.id := DeferredPayment.id invoice;
     DeferredPayment.user_id := DeferredPayment.user_id invoice;
     DeferredPayment.invoice_number := DeferredPayment.invoice_number invoice;
     DeferredPayment.total_amount := DeferredPayment.total_amount invoice;
     DeferredPayment.currency := DeferredPayment.currency invoice;
     DeferredPayment.billing_period_start :=
       DeferredPayment.billing_period_start invoice;
     DeferredPayment.billing_period_end :=
       DeferredPayment.billing_period_end invoice;
     DeferredPayment.status := "paid";
     DeferredPayment.payment_due_date :=
       DeferredPayment.payment_due_date invoice;
     DeferredPayment.overdue_days := DeferredPayment.overdue_days invoice;
     DeferredPayment.is_overdue := DeferredPayment.is_overdue invoice;
     DeferredPayment.late_fee := DeferredPayment.late_fee invoice;
     DeferredPayment.payment_date := Some (today clock);
     DeferredPayment.payment_method := Some payment_method;
     DeferredPayment.payment_reference := Some payment_reference;
     DeferredPayment.paid_at := Some (utcnow clock) |}.

Definition payment_transaction (new_id : uuid)
    (payment_method payment_reference : string)
    (invoice : DeferredPayment.t) : CreditTransaction.t :=
  {| CreditTransaction.id := new_id;
     CreditTransaction.user_id := DeferredPayment.user_id invoice;
     CreditTransaction.transaction_type := "payment";
     CreditTransaction.amount := DeferredPayment.total_amount invoice;
     CreditTransaction.credits_used := None;
     CreditTransaction.credits_granted := None;
     CreditTransaction.service_type := None;
     CreditTransaction.resource_id := None;
     CreditTransaction.payment_method := Some payment_method;
     CreditTransaction.payment_reference := Some payment_reference;
     CreditTransaction.unit_price := Float64.zero;
     CreditTransaction.total_price := Float64.zero;
     CreditTransaction.status := "completed";
     CreditTransaction.metadata := [] |}.

(** [abs(converted_amount - invoice.total_amount) > 0.01] *)
Definition amount_mismatch (converted_amount total_amount : float) : bool :=
  Float64.gtb (Float64.abs (Float64.sub converted_amount total_amount))
              tolerance.

Definition process_payment
    (convert_currency : float -> string -> string -> option float)
    (clock : Clock) (new_id : uuid) (db : DB) (invoice_id : uuid)
    (payment_method payment_reference : string) (amount : float)
    (currency : string) : Outcome Paid :=
  match get_invoice db invoice_id with
  | None => fails db InvoiceNotFound
  | Some invoice =>
      let converted :=
        if negb (String.eqb currency (DeferredPayment.currency invoice))
        then convert_currency amount currency
               (DeferredPayment.currency invoice)
        else Some amount in
      match converted with
      | None => fails db Raised
      | Some converted_amount =>
          if amount_mismatch converted_amount
               (DeferredPayment.total_amount invoice)
          then fails db (AmountMismatch
                           (DeferredPayment.total_amount invoice)
                           converted_amount)
          else
            let invoice' :=
              mark_paid clock payment_method payment_reference invoice in
            let transaction :=
              payment_transaction new_id payment_method payment_reference
                invoice' in
            let db' := add_transaction (put_invoice db invoice') transaction in
            {| returned :=
                 inr {| paid_invoice_number :=
                          DeferredPayment.invoice_number invoice';
                        paid_amount := DeferredPayment.total_amount invoice';
                        paid_currency := DeferredPayment.currency invoice';
                        paid_date := today clock;
                        paid_status := "paid" |};
               db_after := db';
               mails :=
                 match get_user db' (DeferredPayment.user_id invoice') with
                 | Some _ =>
                     [send_payment_confirmation
                        (DeferredPayment.user_id invoice')
                        (DeferredPayment.invoice_number invoice')
                        (DeferredPayment.total_amount invoice')
                        (DeferredPayment.currency invoice')
                        payment_method (today clock)]
                 | None => []
                 end |}
      end
  end.

(** [check_overdue_invoices]. [is_due] is the query, [sweep_invoice] the
    attribute writes of one turn of the loop, [sweep_reminder] the mail of
    that turn. The loop writes to each selected row and to no other, so
    the table after it is the table with [sweep_invoice] applied to the
    selected rows. The count that the method logs is its result here. *)
Definition is_due (today : date) (inv : DeferredPayment.t) : bool :=
  String.eqb (DeferredPayment.status inv) "pending"
  && (DeferredPayment.payment_due_date inv <? today).

Definition hundred : float := Float64.of_Q (100 # 1).

Definition sweep_invoice (settings : Settings) (today : date)
    (invoice : DeferredPayment.t) : DeferredPayment.t :=
  let overdue_days := today - DeferredPayment.payment_due_date invoice in
  let late_fee :=
    Float64.mul (DeferredPayment.total_amount invoice)
      (Float64.div (LATE_FEE_PERCENTAGE settings) hundred) in
  let charged := 7 <? overdue_days in
  {| DeferredPayment.id := DeferredPayment.id invoice;
     DeferredPayment.user_id := DeferredPayment.user_id invoice;
     DeferredPayment.invoice_number :=
       DeferredPayment.invoice_number invoice;
     DeferredPayment.total_amount :=
       if charged
       then Float64.add (DeferredPayment.total_amount invoice) late_fee
       else DeferredPayment.total_amount invoice;
     DeferredPayment.currency := DeferredPayment.currency invoice;
     DeferredPayment.billing_period_start :=
       DeferredPayment.billing_period_start invoice;
     DeferredPayment.billing_period_end :=
       DeferredPayment.billing_period_end invoice;
     DeferredPayment.status := "overdue";
     DeferredPayment.payment_due_date :=
       DeferredPayment.payment_due_date invoice;
     DeferredPayment.overdue_days := overdue_days;
     DeferredPayment.is_overdue := true;
     DeferredPayment.late_fee :=
       if charged then late_fee else DeferredPayment.late_fee invoice;
     DeferredPayment.payment_date := DeferredPayment.payment_date invoice;
     DeferredPayment.payment_method :=
       DeferredPayment.payment_method invoice;
     DeferredPayment.payment_reference :=
       DeferredPayment.payment_reference invoice;
     DeferredPayment.paid_at := DeferredPayment.paid_at invoice |}.

Definition sweep_reminder (settings : Settings) (today : date) (db : DB)
    (invoice : DeferredPayment.t) : list Mail :=
  let swept := sweep_invoice settings today invoice in
  if DeferredPayment.overdue_days swept mod 7 =? 0 then
    match get_user db (DeferredPayment.user_id invoice) with
    | Some _ =>
        [send_overdue_reminder
           (DeferredPayment.user_id swept)
           (DeferredPayment.invoice_number swept)
           (DeferredPayment.total_amount swept)
           (DeferredPayment.currency swept)
           (DeferredPayment.overdue_days swept)
           (DeferredPayment.payment_due_date swept)]
    | None => []
    end
  else [].

Definition check_overdue_invoices (settings : Settings) (clock : Clock)
    (db : DB) : Outcome Z :=
  let selected := is_due (today clock) in
  {| returned :=
       inr (Z.of_nat (length (List.filter selected (invoices db))));
     db_after :=
       {| users := users db;
          transactions := transactions db;
          invoices :=
            List.map (fun inv =>
                        if selected inv
                        then sweep_invoice settings (today clock) inv
                        else inv)
                     (invoices db) |};
     mails :=
       List.flat_map (sweep_reminder settings (today clock) db)
                     (List.filter selected (invoices db)) |}.

(** A row of the table after a sweep. *)
Definition swept_row (settings : Settings) (today : date)
    (inv : DeferredPayment.t) : DeferredPayment.t :=
  if is_due today inv then sweep_invoice settings today inv else inv.

(** Runs of the sweep one after the other, one clock reading per run. *)
Fixpoint sweeps (settings : Settings) (clocks : list Clock) (db : DB) : DB :=
  match clocks with
  | [] => db
  | clock :: rest =>
      sweeps settings rest (db_after (check_overdue_invoices settings clock db))
  end.

(** *** Sequences of calls on the credit ledger *)

(** A call of [add_credits] or of [deduct_credits] with its arguments and
    with what it reads from its surroundings. *)
Inductive LedgerCall : Type :=
  | Credit (new_id user_id : uuid) (credits_amount : Z)
      (transaction_type : string)
      (payment_method payment_reference : option string)
      (metadata : option (list (string * string)))
  | Debit (clock : Clock) (new_id user_id : uuid) (service_type : string)
      (amount : Q) (resource_id : option uuid)
      (metadata : option (list (string * string))).

Definition call_user (call : LedgerCall) : uuid :=
  match call with
  | Credit _ user_id _ _ _ _ _ => user_id
  | Debit _ _ user_id _ _ _ _ => user_id
  end.

(** The credits a call grants and the credits it consumes. *)
Definition call_granted (call : LedgerCall) : Z :=
  match call with
  | Credit _ _ credits_amount _ _ _ _ => credits_amount
  | Debit _ _ _ _ _ _ _ => 0
  end.

Definition call_consumed (call : LedgerCall) : Z :=
  match call with
  | Credit _ _ _ _ _ _ _ => 0
  | Debit _ _ _ _ amount _ _ => int_of_decimal amount
  end.

(** The database after a call that succeeds; [None] for one that fails. *)
Definition run_call (settings : Settings) (db : DB) (call : LedgerCall)
  : option DB :=
  match call with
  | Credit new_id user_id credits_amount transaction_type payment_method
      payment_reference metadata =>
      let outcome :=
        add_credits settings new_id db user_id credits_amount
          transaction_type payment_method payment_reference metadata in
      if succeeded outcome then Some (db_after outcome) else None
  | Debit clock new_id user_id service_type amount resource_id metadata =>
      let outcome :=
        deduct_credits settings clock new_id db user_id service_type amount
          resource_id metadata in
      if succeeded outcome then Some (db_after outcome) else None
  end.

Fixpoint run_calls (settings : Settings) (db : DB) (calls : list LedgerCall)
  : option DB :=
  match calls with
  | [] => Some db
  | call :: rest =>
      match run_call settings db call with
      | Some db' => run_calls settings db' rest
      | None => None
      end
  end.

Definition Zsum (xs : list Z) : Z := List.fold_right Z.add 0 xs.

(** The signed credits of a ledger row: what it grants less what it uses,
    an empty column counting for 0 (as in [txn.credits_used or 0]). *)
Definition credit_delta (txn : CreditTransaction.t) : Z :=
  default 0 (CreditTransaction.credits_granted txn)
  - default 0 (CreditTransaction.credits_used txn).

Definition ledger (db : DB) (user_id : uuid) : list CreditTransaction.t :=
  List.filter (fun txn => CreditTransaction.user_id txn =? user_id)
              (transactions db).

Definition sum_credit_delta (db : DB) (user_id : uuid) : Z :=
  Zsum (List.map credit_delta (ledger db user_id)).

Definition calls_of (user_id : uuid) (calls : list LedgerCall)
  : list LedgerCall :=
  List.filter (fun call => call_user call =? user_id) calls.

Definition granted (user_id : uuid) (calls : list LedgerCall) : Z :=
  Zsum (List.map call_granted (calls_of user_id calls)).

Definition consumed (user_id : uuid) (calls : list LedgerCall) : Z :=
  Zsum (List.map call_consumed (calls_of user_id calls)).

(** *** Listing invoices *)

(** One entry of [get_outstanding_invoices]; the [period] text
    "start to end" is kept as the pair of its dates. *)
Module Outstanding.
Record t : Type := mk {
  invoice_id : uuid;
  invoice_number : string;
  amount : float;
  currency : string;
  status : string;
  due_date : date;
  period : date * date;
  days_overdue : Z;
  late_fee : float
}.
End Outstanding.

Definition describe (inv : DeferredPayment.t) : Outstanding.t :=
  {| Outstanding.invoice_id := DeferredPayment.id inv;
     Outstanding.invoice_number := DeferredPayment.invoice_number inv;
     Outstanding.amount := DeferredPayment.total_amount inv;
     Outstanding.currency := DeferredPayment.currency inv;
     Outstanding.status := DeferredPayment.status inv;
     Outstanding.due_date := DeferredPayment.payment_due_date inv;
     Outstanding.period := (DeferredPayment.billing_period_start inv,
                            DeferredPayment.billing_period_end inv);
     Outstanding.days_overdue := DeferredPayment.overdue_days inv;
     Outstanding.late_fee := DeferredPayment.late_fee inv |}.

(** [ORDER BY payment_due_date] *)
Definition due_before (a b : DeferredPayment.t) : Prop :=
  DeferredPayment.payment_due_date a <= DeferredPayment.payment_due_date b.

#[global] Instance due_before_dec : RelDecision due_before :=
  fun a b => decide (DeferredPayment.payment_due_date a
                     <= DeferredPayment.payment_due_date b).

(** The [WHERE] clauses of [get_outstanding_invoices]. *)
Definition listed (user_id : uuid) (include_paid : bool)
    (inv : DeferredPayment.t) : bool :=
  (DeferredPayment.user_id inv =? user_id) && (include_paid || is_unpaid inv).

(** [get_outstanding_invoices]. SQL leaves the order of rows that have the
    same due date open; the merge sort gives one such order. *)
Definition get_outstanding_invoices (db : DB) (user_id : uuid)
    (include_paid : bool) : list Outstanding.t :=
  List.map describe
    (merge_sort due_before
       (List.filter (listed user_id include_paid) (invoices db))).

(** *** Sequences of calls on the service *)

(** One call of a method that writes to the database, with its arguments
    and with what it reads from its surroundings. *)
Inductive ServiceCall : Type :=
  | OnLedger (call : LedgerCall)
  | Generate (clock : Clock) (new_id : uuid) (invoice_number : string)
      (user_id : uuid) (period_start period_end : option date)
  | Pay (convert_currency : float -> string -> string -> option float)
      (clock : Clock) (new_id invoice_id : uuid)
      (payment_method payment_reference : string) (amount : float)
      (currency : string)
  | Sweep (clock : Clock).

(** The database after a call, whether the call succeeds or fails. *)
Definition serve (settings : Settings) (db : DB) (call : ServiceCall) : DB :=
  match call with
  | OnLedger (Credit new_id user_id credits_amount transaction_type
                payment_method payment_reference metadata) =>
      db_after (add_credits settings new_id db user_id credits_amount
                  transaction_type payment_method payment_reference metadata)
  | OnLedger (Debit clock new_id user_id service_type amount resource_id
                metadata) =>
      db_after (deduct_credits settings clock new_id db user_id service_type
                  amount resource_id metadata)
  | Generate clock new_id invoice_number user_id period_start period_end =>
      db_after (generate_deferred_invoice settings clock new_id
                  invoice_number db user_id period_start period_end)
  | Pay convert_currency clock new_id invoice_id payment_method
      payment_reference amount currency =>
      db_after (process_payment convert_currency clock new_id db invoice_id
                  payment_method payment_reference amount currency)
  | Sweep clock => db_after (check_overdue_invoices settings clock db)
  end.

(** Two states of an account that agree on what no method writes. *)
Definition same_account (a b : User.t) : Prop :=
  User.id a = User.id b
  /\ User.subscription_tier a = User.subscription_tier b
  /\ User.trial_end_date a = User.trial_end_date b
  /\ User.last_payment_date a = User.last_payment_date b
  /\ User.created_at a = User.created_at b.

Definition serve_all (settings : Settings) (db : DB)
    (calls : list ServiceCall) : DB :=
  List.fold_left (serve settings) calls db.

(** What a call can have done to the database. *)
Inductive Written (settings : Settings) (db : DB) : DB -> Prop :=
  | written_nothing : Written settings db db
  | written_ledger (user_id : uuid) (user user' : User.t)
      (txn : CreditTransaction.t) :
      get_user db user_id = Some user ->
      same_account user user' ->
      CreditTransaction.user_id txn = user_id ->
      User.total_credits user' - User.used_credits user'
      = User.total_credits user - User.used_credits user + credit_delta txn ->
      Written settings db (add_transaction (put_user db user_id user') txn)
  | written_invoice (user_id : uuid) (user user' : User.t)
      (invoice : DeferredPayment.t) :
      get_user db user_id = Some user ->
      same_account user user' ->
      User.total_credits user' = User.total_credits user ->
      User.used_credits user' = User.used_credits user ->
      DeferredPayment.status invoice = "pending" ->
      Written settings db (add_invoice (put_user db user_id user') invoice)
  | written_payment (invoice : DeferredPayment.t)
      (txn : CreditTransaction.t) :
      DeferredPayment.status invoice = "paid" ->
      credit_delta txn = 0 ->
      Written settings db (add_transaction (put_invoice db invoice) txn)
  | written_sweep (clock : Clock) :
      Written settings db
        (db_after (check_overdue_invoices settings clock db)).

End BillingService.

(** ** The billing endpoints *)

(** [api/v1/endpoints/billing.py]. *)
Module Endpoints.

Import BillingService.

(** What a request ends in: the body of a 200 answer, or the
    [HTTPException] raised, 400 with the service's error as its detail, 500
    for any other exception. *)
Inductive Response (R : Type) : Type :=
  | HTTP_200 (body : R)
  | HTTP_400 (detail : BillingError)
  | HTTP_500.
Arguments HTTP_200 {R} body.
Arguments HTTP_400 {R} detail.
Arguments HTTP_500 {R}.

(** A request once its background tasks have run. *)
Record Served (R : Type) : Type := {
  response : Response R;
  served_db : DB;
  served_mails : list Mail
}.
Arguments response {R} _.
Arguments served_db {R} _.
Arguments served_mails {R} _.

(** The dates of the query string: an absent or empty parameter is no date;
    [fromisoformat] stands for [datetime.fromisoformat(..).date()], [None]
    when it raises [ValueError]. *)
Definition parse_date (fromisoformat : string -> option date)
    (text : option string) : option (option date) :=
  match text with
  | None => Some None
  | Some s =>
      if String.eqb s "" then Some None
      else match fromisoformat s with
           | Some d => Some (Some d)
           | None => None
           end
  end.

(** [generate_invoice]: the service call, then, when it succeeded, the sweep
    [check_overdue_invoices] that the endpoint hands to the background
    tasks, which reads the clock on its own. *)
Definition generate_invoice (fromisoformat : string -> option date)
    (settings : Settings) (clock task_clock : Clock) (new_id : uuid)
    (invoice_number : string) (db : DB) (current_user : uuid)
    (period_start period_end : option string) : Served Invoiced :=
  match parse_date fromisoformat period_start,
        parse_date fromisoformat period_end with
  | Some start_date, Some end_date =>
      let result :=
        generate_deferred_invoice settings clock new_id invoice_number db
          current_user start_date end_date in
      match returned result with
      | inl error =>
          {| response := HTTP_400 error;
             served_db := db_after result;
             served_mails := mails result |}
      | inr invoiced =>
          let task :=
            check_overdue_invoices settings task_clock (db_after result) in
          {| response := HTTP_200 invoiced;
             served_db := db_after task;
             served_mails := mails result ++ mails task |}
      end
  | _, _ =>
      {| response := HTTP_500; served_db := db; served_mails := [] |}
  end.

End Endpoints.

(** ** Sample data *)

Module Sample.

(** Day 20000, at midnight UTC. *)
Definition clock : Clock := {| today := 20000; utcnow := 20000 * 86400 |}.

Definition at_day (d : date) : Clock :=
  {| today := d; utcnow := d * 86400 |}.

(** User 1, out of trial, on the "trial" tier (deferred billing). *)
Definition account (total used : Z) (balance : float) : User.t :=
  {| User.id := 1;
     User.total_credits := total;
     User.used_credits := used;
     User.total_spent := Float64.zero;
     User.deferred_payment_balance := balance;
     User.subscription_tier := "trial";
     User.trial_end_date := Some 19000;
     User.last_payment_date := None;
     User.next_payment_due_date := None;
     User.created_at := 18970 * 86400 |}.

Definition db_of (user : User.t) (rows : list DeferredPayment.t) : DB :=
  {| users := {[ 1 := user ]}; transactions := []; invoices := rows |}.

(** [total_credits = 1000], [used_credits = 1000], trial over. *)
Definition exhausted : DB := db_of (account 1000 1000 Float64.zero) [].

(** Invoice 5 of user 1, in USD, due on day [due]. *)
Definition invoice (total : float) (status : string) (due : date)
  : DeferredPayment.t :=
  {| DeferredPayment.id := 5;
     DeferredPayment.user_id := 1;
     DeferredPayment.invoice_number := "INV-20240101000000-123456";
     DeferredPayment.total_amount := total;
     DeferredPayment.currency := "USD";
     DeferredPayment.billing_period_start := due - 37;
     DeferredPayment.billing_period_end := due - 7;
     DeferredPayment.status := status;
     DeferredPayment.payment_due_date := due;
     DeferredPayment.overdue_days := 0;
     DeferredPayment.is_overdue := false;
     DeferredPayment.late_fee := Float64.zero;
     DeferredPayment.payment_date := None;
     DeferredPayment.payment_method := None;
     DeferredPayment.payment_reference := None;
     DeferredPayment.paid_at := None |}.

(** One pending invoice of 100.00, due on day 19990. *)
Definition billed : DB :=
  db_of (account 2000 12000 Float64.zero)
        [invoice (Float64.of_Q 100) "pending" 19990].

(** What a test reads off the invoice table. *)
Definition columns (db : DB) : list (string * Z * float * float) :=
  List.map (fun inv => (DeferredPayment.status inv,
                        DeferredPayment.overdue_days inv,
                        DeferredPayment.late_fee inv,
                        DeferredPayment.total_amount inv))
           (invoices db).

(** One invoice of 100.00, already paid. *)
Definition settled : DB :=
  db_of (account 2000 12000 Float64.zero)
        [invoice (Float64.of_Q 100) "paid" 19990].

(** One pending invoice of 99.99, due on day 20010. *)
Definition small_bill : DB :=
  db_of (account 2000 11999 Float64.zero)
        [invoice (Float64.of_Q (9999 # 100)) "pending" 20010].

(** An unbilled balance of 15.00 next to a pending invoice of 99.99. *)
Definition owing : DB :=
  db_of (account 2000 13499 (Float64.of_Q 15))
        [invoice (Float64.of_Q (9999 # 100)) "pending" 20010].

(** User 1 on day 18990, ten days before the trial ends, with one credit
    left of 1000. *)
Definition in_trial : DB := db_of (account 1000 999 Float64.zero) [].

(** A currency service that knows the euro: 1 EUR = 1.25 USD. *)
Definition euro_rate (amount : float) (from to : string) : option float :=
  if String.eqb from "EUR" && String.eqb to "USD"
  then Some (Float64.mul amount (Float64.of_Q (5 # 4)))
  else None.

(** A reader of ISO dates that knows two texts. *)
Definition iso (text : string) : option date :=
  if String.eqb text "2024-06-01" then Some 19875
  else if String.eqb text "2024-06-30" then Some 19904
  else None.

(** Three invoices of user 1 and one of user 2, not in the order of their
    due dates. *)
Definition several : DB :=
  {| users := {[ 1 := account 2000 12000 Float64.zero ]};
     transactions := [];
     invoices :=
       [DeferredPayment.mk 21 1 "INV-B" (Float64.of_Q 30) "USD" 19940 19970
          "overdue" 19977 3 true Float64.zero None None None None;
        DeferredPayment.mk 22 2 "INV-X" (Float64.of_Q 99) "USD" 19900 19930
          "pending" 19937 0 false Float64.zero None None None None;
        DeferredPayment.mk 23 1 "INV-A" (Float64.of_Q 20) "USD" 19900 19930
          "paid" 19937 0 false Float64.zero (Some 19935) (Some "card")
          (Some "ch_3") (Some (19935 * 86400));
        DeferredPayment.mk 24 1 "INV-C" (Float64.of_Q 40) "USD" 19910 19940
          "pending" 19947 0 false Float64.zero None None None None] |}.

(** As [owing], with credits left to spend. *)
Definition funded : DB :=
  db_of (account 20000 13499 (Float64.of_Q 15))
        [invoice (Float64.of_Q (9999 # 100)) "pending" 20010].

(** A currency service that knows no rate. *)
Definition no_conversion (amount : float) (from to : string)
  : option float := None.

End Sample.

Import BillingService.

(** * Properties *)

(** ** Floating-point comparison *)

Section Comparison.

Lemma compare_cont_swap (p q : positive) :
  PosDef.Pos.compare_cont Eq q p = CompOpp (PosDef.Pos.compare_cont Eq p q).
Proof. symmetry. exact (Pos.compare_cont_antisym p q Eq). Qed.

Lemma SFcompare_swap (x y : float) :
  SFcompare y x = option_map CompOpp (SFcompare x y).
Proof.
  destruct x as [sx|sx| |sx mx ex], y as [sy|sy| |sy my ey];
    repeat match goal with b : bool |- _ => destruct b end;
    simpl; try reflexivity;
    rewrite (Z.compare_antisym ex ey);
    destruct (ex ?= ey); simpl; try reflexivity;
    now rewrite (compare_cont_swap mx my).
Qed.

Lemma ltb_true_not_nan (x y : float) :
  Float64.ltb x y = true ->
  Float64.is_nan x = false /\ Float64.is_nan y = false.
Proof.
  unfold Float64.ltb, SFltb.
  destruct x, y; simpl; try discriminate; auto.
Qed.

Lemma leb_true_not_nan (x y : float) :
  Float64.leb x y = true ->
  Float64.is_nan x = false /\ Float64.is_nan y = false.
Proof.
  unfold Float64.leb, SFleb.
  destruct x, y; simpl; try discriminate; auto.
Qed.

Lemma leb_true_ltb_false (x y : float) :
  Float64.leb x y = true -> Float64.ltb y x = false.
Proof.
  unfold Float64.leb, Float64.ltb, SFleb, SFltb.
  rewrite (SFcompare_swap x y).
  destruct (SFcompare x y) as [[]|]; simpl; congruence.
Qed.

End Comparison.

(** ** Debits that the balance does not cover *)

Lemma Qltb_true (x y : Q) : (x < y)%Q -> Qltb x y = true.
Proof.
  intros Hlt. unfold Qltb.
  destruct (Qle_bool y x) eqn:Hle; [|reflexivity].
  apply Qle_bool_iff in Hle. exfalso. exact (Qlt_not_le _ _ Hlt Hle).
Qed.

(** C3. When the trial is not active, or the trial credits are used up
    ([used_credits >= TRIAL_CREDITS]), a debit whose amount is above the
    available credits ([total_credits - used_credits]) fails with
    "Insufficient credits", reporting the available and the required amount;
    the database after the call is the database before it and no mail is
    sent. *)
Theorem deduct_credits_insufficient
    (settings : Settings) (clock : Clock) (new_id : uuid) (db : DB)
    (user_id : uuid) (user : User.t) (service_type : string) (amount : Q)
    (resource_id : option uuid) (metadata : option (list (string * string))) :
  get_user db user_id = Some user ->
  _is_trial_active clock user = false
    \/ TRIAL_CREDITS settings <= User.used_credits user ->
  (inject_Z (User.total_credits user - User.used_credits user) < amount)%Q ->
  deduct_credits settings clock new_id db user_id service_type amount
    resource_id metadata
  = {| returned :=
         inl (InsufficientCredits
                (User.total_credits user - User.used_credits user) amount);
       db_after := db;
       mails := [] |}.
Proof.
  intros Huser Htrial Hlt.
  unfold deduct_credits. rewrite Huser.
  rewrite (Qltb_true _ _ Hlt).
  assert (Hgate : _is_trial_active clock user
                  && (User.used_credits user <? TRIAL_CREDITS settings)
                  = false).
  { destruct Htrial as [Hoff|Hused].
    - now rewrite Hoff.
    - apply andb_false_intro2. apply Z.ltb_ge. exact Hused. }
  rewrite Hgate. reflexivity.
Qed.

Lemma deduct_credits_insufficient_witness :
  deduct_credits default_settings Sample.clock 7 Sample.exhausted 1
    "chat_processing" 1%Q None None
  = {| returned := inl (InsufficientCredits 0 1%Q);
       db_after := Sample.exhausted;
       mails := [] |}.
Proof.
  apply (deduct_credits_insufficient default_settings Sample.clock 7
           Sample.exhausted 1 (Sample.account 1000 1000 Float64.zero)).
  - reflexivity.
  - left. reflexivity.
  - reflexivity.
Defined.

(** ** Cost of a service *)

(** C9. With no custom rate, a service type that is not a key of the
    pricing table costs 0, whatever the quantity and the duration; with a
    custom rate the cost is the custom rate times the quantity, whatever the
    service type. *)
Theorem calculate_service_cost_unpriced_or_custom
    (settings : Settings) (service_type : string) (quantity : Z)
    (duration : option Z) :
  (pricing settings !! service_type = None ->
   calculate_service_cost settings service_type quantity duration None
   = 0%Q)
  /\ (forall custom_rate : Q,
        calculate_service_cost settings service_type quantity duration
          (Some custom_rate)
        = (custom_rate * inject_Z quantity)%Q).
Proof.
  split; [|reflexivity].
  intros Hnone. unfold calculate_service_cost.
  assert (Hkey : forall key : string,
             is_Some (pricing settings !! key) ->
             String.eqb service_type key = false).
  { intros key [table Hkey].
    destruct (String.eqb_spec service_type key) as [->|]; [|reflexivity].
    congruence. }
  rewrite !Hkey; [reflexivity|..]; vm_compute; eauto.
Qed.

Lemma calculate_service_cost_unpriced_or_custom_witness :
  calculate_service_cost default_settings "video_rendering" 3 (Some 90) None
  = 0%Q.
Proof.
  apply (proj1 (calculate_service_cost_unpriced_or_custom
                  default_settings "video_rendering" 3 (Some 90))).
  vm_compute. reflexivity.
Defined.

(** ** Invoice generation *)

Lemma get_user_put_user (db : DB) (user_id : uuid) (user : User.t) :
  get_user (put_user db user_id user) user_id = Some user.
Proof. unfold get_user, put_user. simpl. apply lookup_insert_eq. Qed.

Lemma get_user_put_user_ne (db : DB) (user_id other : uuid) (user : User.t) :
  user_id <> other ->
  get_user (put_user db user_id user) other = get_user db other.
Proof.
  intros Hne. unfold get_user, put_user. simpl.
  now apply lookup_insert_ne.
Qed.



(** ** The overdue sweep *)

Section Sweep.

Context (settings : Settings).

Lemma is_due_sweep_invoice (today today' : date) (inv : DeferredPayment.t) :
  is_due today' (sweep_invoice settings today inv) = false.
Proof. reflexivity. Qed.

Lemma is_due_pending (today : date) (inv : DeferredPayment.t) :
  DeferredPayment.status inv = "pending" ->
  is_due today inv = (DeferredPayment.payment_due_date inv <? today).
Proof. intros Hst. unfold is_due. now rewrite Hst. Qed.

Lemma is_due_not_pending (today : date) (inv : DeferredPayment.t) :
  DeferredPayment.status inv <> "pending" -> is_due today inv = false.
Proof.
  intros Hst. unfold is_due.
  destruct (String.eqb_spec (DeferredPayment.status inv) "pending");
    [contradiction|reflexivity].
Qed.

Lemma invoices_after_sweep (clock : Clock) (db : DB) :
  invoices (db_after (check_overdue_invoices settings clock db))
  = List.map (swept_row settings (today clock)) (invoices db).
Proof. reflexivity. Qed.

Lemma swept_row_not_due (today today' : date) (inv : DeferredPayment.t) :
  is_due today' (swept_row settings today inv) = true -> is_due today inv = false.
Proof.
  unfold swept_row. destruct (is_due today inv) eqn:Hdue; [|reflexivity].
  now rewrite is_due_sweep_invoice.
Qed.

Lemma nothing_due_after_sweep (today : date) (rows : list DeferredPayment.t) :
  List.filter (is_due today) (List.map (swept_row settings today) rows) = [].
Proof.
  induction rows as [|inv rows IH]; [reflexivity|].
  simpl. rewrite IH.
  destruct (is_due today (swept_row settings today inv)) eqn:Hdue; [|reflexivity].
  pose proof (swept_row_not_due _ _ _ Hdue) as Hnot.
  unfold swept_row in Hdue. rewrite Hnot in Hdue. congruence.
Qed.

(** A sweep that finds no row due does nothing. *)
Lemma sweep_nothing_due (clock : Clock) (db : DB) :
  List.filter (is_due (today clock)) (invoices db) = [] ->
  check_overdue_invoices settings clock db
  = {| returned := inr 0; db_after := db; mails := [] |}.
Proof.
  intros Hnone. unfold check_overdue_invoices. rewrite Hnone. simpl.
  f_equal. destruct db as [us txns rows]. simpl in *. f_equal.
  induction rows as [|inv rows IH]; [reflexivity|].
  simpl in *. destruct (is_due (today clock) inv); [discriminate|].
  f_equal. exact (IH Hnone).
Qed.

(** A row that is not pending is out of reach of every later sweep. *)
Lemma sweeps_keep_row (clocks : list Clock) (db : DB) (i : nat)
    (inv : DeferredPayment.t) :
  invoices db !! i = Some inv ->
  DeferredPayment.status inv <> "pending" ->
  invoices (sweeps settings clocks db) !! i = Some inv.
Proof.
  revert db. induction clocks as [|clock clocks IH]; intros db Hrow Hst.
  - exact Hrow.
  - cbn [sweeps]. apply IH; [|exact Hst].
    rewrite invoices_after_sweep, list_lookup_fmap, Hrow. simpl.
    unfold swept_row. now rewrite (is_due_not_pending _ _ Hst).
Qed.

End Sweep.

(** C5. A second run of the sweep on the same day changes nothing: the
    database after the second run is the database after the first (so every
    invoice keeps its status, overdue days, late fee and total), the second
    run selects no invoice and sends no reminder. *)
Theorem check_overdue_invoices_idempotent
    (settings : Settings) (clock : Clock) (db : DB) :
  let first := check_overdue_invoices settings clock db in
  let second := check_overdue_invoices settings clock (db_after first) in
  db_after second = db_after first
  /\ returned second = inr 0
  /\ mails second = [].
Proof.
  intros first second. subst second.
  rewrite (sweep_nothing_due settings clock (db_after first)).
  - repeat split.
  - subst first. rewrite invoices_after_sweep.
    apply nothing_due_after_sweep.
Qed.




(** C6, where the code departs from it. On the day the invoice is 7 days
    overdue the sweep sends one reminder and marks the invoice overdue; on
    the day it is 14 days overdue the sweep does not select it any more:
    no reminder is sent and [overdue_days] stays 7. *)
Theorem check_overdue_invoices_reminds_once :
  let day7 :=
    check_overdue_invoices default_settings (Sample.at_day 19997)
      Sample.billed in
  let day14 :=
    check_overdue_invoices default_settings (Sample.at_day 20004)
      (db_after day7) in
  mails day7
  = [send_overdue_reminder 1 "INV-20240101000000-123456"
       (Float64.of_Q 100) "USD" 7 19990]
  /\ mails day14 = []
  /\ Sample.columns (db_after day14)
     = [("overdue", 7, Float64.zero, Float64.of_Q 100)].
Proof. vm_compute. repeat split. Qed.

(** ** Payments *)

Section Payment.

Context (convert_currency : float -> string -> string -> option float).
Context (clock : Clock) (new_id : uuid) (db : DB) (invoice_id : uuid).
Context (payment_method payment_reference : string) (amount : float).

Lemma get_invoice_id (invoice : DeferredPayment.t) :
  get_invoice db invoice_id = Some invoice ->
  DeferredPayment.id invoice = invoice_id.
Proof.
  unfold get_invoice. intros Hfind.
  apply List.find_some in Hfind. destruct Hfind as [_ Heq].
  now apply Z.eqb_eq.
Qed.

Lemma get_invoice_put_invoice (invoice invoice' : DeferredPayment.t) :
  get_invoice db invoice_id = Some invoice ->
  DeferredPayment.id invoice' = invoice_id ->
  get_invoice (put_invoice db invoice') invoice_id = Some invoice'.
Proof.
  unfold get_invoice, put_invoice. simpl. intros Hfind Hid.
  pose proof (proj2 (Z.eqb_eq _ _) Hid) as Hsame.
  rewrite Hid.
  induction (invoices db) as [|row rows IH]; [discriminate|].
  simpl in *.
  destruct (DeferredPayment.id row =? invoice_id) eqn:Hrow.
  - now rewrite Hsame.
  - rewrite Hrow. exact (IH Hfind).
Qed.

(** The rows with another primary key are not written. *)
Lemma put_invoice_other (invoice' row : DeferredPayment.t) (i : nat) :
  invoices db !! i = Some row ->
  DeferredPayment.id row <> DeferredPayment.id invoice' ->
  invoices (put_invoice db invoice') !! i = Some row.
Proof.
  intros Hrow Hne. unfold put_invoice. simpl.
  rewrite list_lookup_fmap, Hrow. simpl.
  now rewrite (proj2 (Z.eqb_neq _ _) Hne).
Qed.

(** The call in the currency of the invoice: it reads the invoice's total
    and nothing else of the invoice. *)
Lemma process_payment_rejects (invoice : DeferredPayment.t) :
  get_invoice db invoice_id = Some invoice ->
  amount_mismatch amount (DeferredPayment.total_amount invoice) = true ->
  process_payment convert_currency clock new_id db invoice_id payment_method
    payment_reference amount (DeferredPayment.currency invoice)
  = {| returned :=
         inl (AmountMismatch (DeferredPayment.total_amount invoice) amount);
       db_after := db;
       mails := [] |}.
Proof.
  intros Hget Hoff. unfold process_payment.
  rewrite Hget, String.eqb_refl. simpl. now rewrite Hoff.
Qed.

Lemma process_payment_accepts (invoice : DeferredPayment.t) :
  get_invoice db invoice_id = Some invoice ->
  amount_mismatch amount (DeferredPayment.total_amount invoice) = false ->
  let call :=
    process_payment convert_currency clock new_id db invoice_id
      payment_method payment_reference amount
      (DeferredPayment.currency invoice) in
  let invoice' := mark_paid clock payment_method payment_reference invoice in
  succeeded call = true
  /\ get_invoice (db_after call) invoice_id = Some invoice'
  /\ transactions (db_after call)
     = transactions db
       ++ [payment_transaction new_id payment_method payment_reference
             invoice]
  /\ users (db_after call) = users db
  /\ (forall (i : nat) (row : DeferredPayment.t),
         invoices db !! i = Some row ->
         DeferredPayment.id row <> invoice_id ->
         invoices (db_after call) !! i = Some row).
Proof.
  intros Hget Hin call invoice'. subst call. unfold process_payment.
  rewrite Hget, String.eqb_refl. simpl negb. cbv iota. rewrite Hin.
  fold invoice'. simpl.
  pose proof (get_invoice_id _ Hget) as Hid.
  split; [reflexivity|]. split; [|split; [reflexivity|split; [reflexivity|]]].
  - change (get_invoice (put_invoice db invoice') invoice_id = Some invoice').
    now apply (get_invoice_put_invoice invoice).
  - intros i row Hrow Hne.
    change (invoices (put_invoice db invoice') !! i = Some row).
    apply put_invoice_other; [exact Hrow|]. simpl. congruence.
Qed.

End Payment.







(** ** The credit ledger *)

Lemma Zsum_app (xs ys : list Z) : Zsum (xs ++ ys) = Zsum xs + Zsum ys.
Proof.
  unfold Zsum. induction xs as [|x xs IH]; simpl; [reflexivity|].
  rewrite IH. lia.
Qed.

Lemma sum_credit_delta_add (db : DB) (txn : CreditTransaction.t)
    (user_id : uuid) :
  sum_credit_delta (add_transaction db txn) user_id
  = sum_credit_delta db user_id
    + (if CreditTransaction.user_id txn =? user_id
       then credit_delta txn else 0).
Proof.
  unfold sum_credit_delta, ledger, add_transaction. simpl.
  rewrite List.filter_app, List.map_app, Zsum_app. simpl.
  destruct (CreditTransaction.user_id txn =? user_id); simpl; lia.
Qed.

Lemma sum_credit_delta_put_user (db : DB) (key : uuid) (user : User.t)
    (user_id : uuid) :
  sum_credit_delta (put_user db key user) user_id
  = sum_credit_delta db user_id.
Proof. reflexivity. Qed.

(** What one successful call does to an account and to the ledger. *)
Lemma run_call_effect (settings : Settings) (db db' : DB)
    (call : LedgerCall) (user_id : uuid) (user : User.t) :
  run_call settings db call = Some db' ->
  get_user db user_id = Some user ->
  let mine := call_user call =? user_id in
  (exists user',
      get_user db' user_id = Some user'
      /\ User.total_credits user'
         = User.total_credits user + (if mine then call_granted call else 0)
      /\ User.used_credits user'
         = User.used_credits user + (if mine then call_consumed call else 0))
  /\ (exists txn,
         transactions db' = transactions db ++ [txn]
         /\ CreditTransaction.user_id txn = call_user call
         /\ credit_delta txn = call_granted call - call_consumed call)
  /\ sum_credit_delta db' user_id
     = sum_credit_delta db user_id
       + (if mine then call_granted call - call_consumed call else 0).
Proof.
  intros Hrun Huser mine.
  destruct call as [new_id target credits_amount kind method reference meta
                   |clock new_id target service amount resource meta];
    simpl in Hrun, mine.
  - unfold add_credits in Hrun.
    destruct (get_user db target) as [owner|] eqn:Howner;
      [|discriminate].
    destruct (Float64.of_Z credits_amount) as [credits_float|];
      [|discriminate].
    simpl in Hrun. injection Hrun as <-.
    split; [|split].
    + subst mine. destruct (Z.eqb_spec target user_id) as [->|Hne].
      * eexists. split.
        { apply lookup_insert_eq. }
        assert (owner = user) as -> by congruence.
        simpl. split; lia.
      * exists user. split.
        { unfold get_user. simpl. rewrite lookup_insert_ne by exact Hne.
          exact Huser. }
        split; lia.
    + eexists. split; [reflexivity|]. split; [reflexivity|].
      unfold credit_delta. simpl. lia.
    + rewrite sum_credit_delta_add, sum_credit_delta_put_user.
      unfold credit_delta. simpl. subst mine.
      destruct (target =? user_id); lia.
  - unfold deduct_credits in Hrun.
    destruct (get_user db target) as [owner|] eqn:Howner;
      [|discriminate].
    destruct (Qltb (inject_Z (User.total_credits owner
                              - User.used_credits owner)) amount
              && negb (_is_trial_active clock owner
                       && (User.used_credits owner
                           <? TRIAL_CREDITS settings)));
      [discriminate|].
    simpl in Hrun. injection Hrun as <-.
    split; [|split].
    + subst mine. destruct (Z.eqb_spec target user_id) as [->|Hne].
      * eexists. split.
        { apply lookup_insert_eq. }
        assert (owner = user) as -> by congruence.
        simpl. split; lia.
      * exists user. split.
        { unfold get_user. simpl. rewrite lookup_insert_ne by exact Hne.
          exact Huser. }
        split; lia.
    + eexists. split; [reflexivity|]. split; [reflexivity|].
      unfold credit_delta. simpl. lia.
    + rewrite sum_credit_delta_add, sum_credit_delta_put_user.
      unfold credit_delta. simpl. subst mine.
      destruct (target =? user_id); lia.
Qed.

(** C2, as stated, fails: the debit of 2.5 credits that 15 seconds of voice
    processing cost succeeds, raises [used_credits] from 10 to 12 and
    records [credits_used = 2]; 2 is not 2.5. *)
Lemma deduct_credits_truncates :
  let before := Sample.db_of (Sample.account 1000 10 Float64.zero) [] in
  let call :=
    deduct_credits default_settings Sample.clock 7 before 1
      "voice_processing" (5 # 2) None None in
  (calculate_service_cost default_settings "voice_processing" 1%Z
     (Some 15%Z) None == 5 # 2)%Q
  /\ succeeded call = true
  /\ option_map User.used_credits (get_user (db_after call) 1) = Some 12
  /\ List.map CreditTransaction.credits_used (transactions (db_after call))
     = [Some 2]
  /\ ~ (inject_Z (12 - 10) == 5 # 2)%Q.
Proof.
  vm_compute. repeat split; try reflexivity.
  intros H. discriminate H.
Qed.

(** C2, amended. After a sequence of credit and debit calls that all
    succeed, the account holds its former [total_credits] plus the credits
    granted to it and its former [used_credits] plus the credits consumed,
    where a debit of amount [a] consumes [int(a)], the amount without its
    fraction; [get_user_credits] reports [total_credits - used_credits] as
    available; every call has added one row to the ledger, and the signed
    credits of the account's rows have grown by the credits granted less the
    credits consumed. In particular one successful debit of amount [a]
    raises [used_credits] by [int(a)] and appends one usage row whose signed
    credits are [-int(a)]. *)
Theorem credit_ledger_balance
    (settings : Settings) (db db' : DB) (calls : list LedgerCall)
    (user_id : uuid) (user : User.t) :
  run_calls settings db calls = Some db' ->
  get_user db user_id = Some user ->
  (exists user',
      get_user db' user_id = Some user'
      /\ User.total_credits user'
         = User.total_credits user + granted user_id calls
      /\ User.used_credits user'
         = User.used_credits user + consumed user_id calls
      /\ forall clock : Clock,
           exists credits,
             get_user_credits settings clock db' user_id = inr credits
             /\ available_credits credits
                = User.total_credits user' - User.used_credits user')
  /\ length (transactions db')
     = (length (transactions db) + length calls)%nat
  /\ sum_credit_delta db' user_id
     = sum_credit_delta db user_id
       + granted user_id calls - consumed user_id calls
  /\ forall clock new_id service_type amount resource_id metadata,
       calls = [Debit clock new_id user_id service_type amount resource_id
                  metadata] ->
       exists user' txn,
         get_user db' user_id = Some user'
         /\ User.used_credits user'
            = User.used_credits user + int_of_decimal amount
         /\ transactions db' = transactions db ++ [txn]
         /\ CreditTransaction.transaction_type txn = "usage"
         /\ CreditTransaction.credits_used txn
            = Some (int_of_decimal amount)
         /\ credit_delta txn = - int_of_decimal amount.
Proof.
  intros Hrun Huser.
  assert (Hmain :
    (exists user',
        get_user db' user_id = Some user'
        /\ User.total_credits user'
           = User.total_credits user + granted user_id calls
        /\ User.used_credits user'
           = User.used_credits user + consumed user_id calls)
    /\ length (transactions db')
       = (length (transactions db) + length calls)%nat
    /\ sum_credit_delta db' user_id
       = sum_credit_delta db user_id
         + granted user_id calls - consumed user_id calls).
  { clear - Hrun Huser. revert db user Hrun Huser.
    induction calls as [|call rest IH]; intros db user Hrun Huser.
    - simpl in Hrun. injection Hrun as <-.
      unfold granted, consumed. simpl.
      split; [exists user; repeat split; [exact Huser|lia|lia]|].
      split; lia.
    - simpl in Hrun.
      destruct (run_call settings db call) as [db1|] eqn:Hcall;
        [|discriminate].
      destruct (run_call_effect settings db db1 call user_id user Hcall
                  Huser) as ((user1 & Huser1 & Htotal1 & Hused1)
                             & (txn & Hledger1 & _) & Hsum1).
      destruct (IH db1 user1 Hrun Huser1)
        as ((user' & Huser' & Htotal' & Hused') & Hlen & Hsum).
      unfold granted, consumed, calls_of in *. simpl.
      destruct (call_user call =? user_id); simpl.
      + split; [exists user'; repeat split; [exact Huser'|lia|lia]|].
        rewrite Hlen, Hsum, Hsum1, Hledger1, length_app. simpl.
        split; lia.
      + split; [exists user'; repeat split; [exact Huser'|lia|lia]|].
        rewrite Hlen, Hsum, Hsum1, Hledger1, length_app. simpl.
        split; lia. }
  destruct Hmain as ((user' & Huser' & Htotal' & Hused') & Hlen & Hsum).
  split; [|split; [exact Hlen|split; [exact Hsum|]]].
  - exists user'. repeat split; try assumption.
    intros clock. unfold get_user_credits. rewrite Huser'.
    eexists. split; reflexivity.
  - intros clock new_id service_type amount resource_id metadata ->.
    simpl in Hrun. unfold deduct_credits in Hrun. rewrite Huser in Hrun.
    destruct (Qltb (inject_Z (User.total_credits user
                              - User.used_credits user)) amount
              && negb (_is_trial_active clock user
                       && (User.used_credits user
                           <? TRIAL_CREDITS settings)));
      [discriminate|].
    simpl in Hrun. injection Hrun as <-.
    eexists. eexists. split; [apply lookup_insert_eq|].
    repeat split.
Qed.

Lemma credit_ledger_balance_witness :
  let before := Sample.db_of (Sample.account 1000 10 Float64.zero) [] in
  let calls :=
    [Credit 7 1 500 "purchase" (Some "card") (Some "ch_1") None;
     Debit Sample.clock 8 1 "voice_processing" (5 # 2) None None;
     Debit Sample.clock 9 1 "chat_processing" 3 None None] in
  exists after,
    run_calls default_settings before calls = Some after
    /\ (exists user',
           get_user after 1 = Some user'
           /\ User.total_credits user' = 1500
           /\ User.used_credits user' = 15)
    /\ length (transactions after) = 3%nat
    /\ sum_credit_delta after 1 = 495.
Proof.
  intros before calls.
  destruct (run_calls default_settings before calls) as [after|] eqn:Hrun;
    [|vm_compute in Hrun; discriminate Hrun].
  exists after. split; [reflexivity|].
  destruct (credit_ledger_balance default_settings before after calls 1
              (Sample.account 1000 10 Float64.zero) Hrun eq_refl)
    as ((user' & Huser' & Htotal' & Hused' & _) & Hlen & Hsum & _).
  split; [|split; [exact Hlen|exact Hsum]].
  exists user'. split; [exact Huser'|]. split; [exact Htotal'|exact Hused'].
Defined.

(** ** Rounding in binary64 *)

Section Rounding.

Lemma pow2_xO (n : positive) : 2 ^ Zpos n~0 = 2 ^ Zpos n * 2 ^ Zpos n.
Proof. rewrite <- Z.pow_add_r by lia. f_equal. lia. Qed.

Lemma pow2_xI (n : positive) : 2 ^ Zpos n~1 = 2 * (2 ^ Zpos n * 2 ^ Zpos n).
Proof.
  rewrite <- Z.pow_add_r, <- Z.pow_succ_r by lia. f_equal. lia.
Qed.

Lemma pow2_pos (n : Z) : 0 <= n -> 0 < 2 ^ n.
Proof. intros Hn. apply Z.pow_pos_nonneg; lia. Qed.

Lemma shr_m_of_loc (m : Z) (l : location) :
  shr_m (shr_record_of_loc m l) = m.
Proof. destruct l as [|[]]; reflexivity. Qed.

Lemma shr_m_shr_1 (mrs : shr_record) :
  0 <= shr_m mrs -> shr_m (shr_1 mrs) = shr_m mrs / 2.
Proof.
  destruct mrs as [m r s]. simpl. intros Hm.
  rewrite <- Z.div2_div.
  destruct m as [|[p|p|]|p]; try reflexivity. lia.
Qed.

Lemma shr_m_iter (n : positive) (mrs : shr_record) :
  0 <= shr_m mrs ->
  shr_m (SpecFloat.iter_pos shr_1 n mrs) = shr_m mrs / 2 ^ Zpos n.
Proof.
  revert mrs. induction n as [n IH|n IH|]; intros mrs Hm;
    simpl SpecFloat.iter_pos.
  - assert (H1 : 0 <= shr_m (shr_1 mrs)).
    { rewrite shr_m_shr_1 by exact Hm. apply Z.div_pos; lia. }
    assert (H2 : 0 <= shr_m (SpecFloat.iter_pos shr_1 n (shr_1 mrs))).
    { rewrite IH by exact H1. apply Z.div_pos; [exact H1|].
      apply pow2_pos. lia. }
    pose proof (pow2_pos (Zpos n) ltac:(lia)) as Hpow.
    rewrite IH by exact H2. rewrite IH by exact H1.
    rewrite shr_m_shr_1 by exact Hm.
    rewrite !Z.div_div by lia.
    now rewrite pow2_xI.
  - assert (H1 : 0 <= shr_m (SpecFloat.iter_pos shr_1 n mrs)).
    { rewrite IH by exact Hm. apply Z.div_pos; [exact Hm|].
      apply pow2_pos. lia. }
    pose proof (pow2_pos (Zpos n) ltac:(lia)) as Hpow.
    rewrite IH by exact H1. rewrite IH by exact Hm.
    rewrite Z.div_div by lia.
    now rewrite pow2_xO.
  - rewrite shr_m_shr_1 by exact Hm. reflexivity.
Qed.

Lemma digits2_pos_lower (p : positive) :
  2 ^ (Zpos (digits2_pos p) - 1) <= Zpos p.
Proof.
  induction p as [p IH|p IH|]; simpl digits2_pos.
  - rewrite Pos2Z.inj_succ.
    replace (Z.succ (Zpos (digits2_pos p)) - 1)
      with (Z.succ (Zpos (digits2_pos p) - 1)) by lia.
    rewrite Z.pow_succ_r by lia. lia.
  - rewrite Pos2Z.inj_succ.
    replace (Z.succ (Zpos (digits2_pos p)) - 1)
      with (Z.succ (Zpos (digits2_pos p) - 1)) by lia.
    rewrite Z.pow_succ_r by lia. lia.
  - reflexivity.
Qed.

Local Abbreviation emin := (SpecFloat.emin Float64.prec Float64.emax).

Lemma shr_fexp_positive (m e : Z) (l : location) :
  0 < m -> emin <= e ->
  0 < shr_m (fst (shr_fexp Float64.prec Float64.emax m e l))
  /\ emin <= snd (shr_fexp Float64.prec Float64.emax m e l).
Proof.
  intros Hm He. unfold shr_fexp, shr.
  destruct m as [|p|p]; try lia. simpl Zdigits2.
  pose proof (digits2_pos_lower p) as Hdigits.
  destruct (fexp Float64.prec Float64.emax (Zpos (digits2_pos p) + e) - e)
    as [|n|n] eqn:Hn; simpl fst; simpl snd.
  - rewrite shr_m_of_loc. split; [lia|exact He].
  - rewrite shr_m_iter by (rewrite shr_m_of_loc; lia).
    rewrite shr_m_of_loc.
    unfold fexp, SpecFloat.emin, Float64.prec, Float64.emax in *.
    split; [|lia].
    apply Z.div_str_pos. split; [apply pow2_pos; lia|].
    transitivity (2 ^ (Zpos (digits2_pos p) - 1)); [|exact Hdigits].
    apply Z.pow_le_mono_r; lia.
  - rewrite shr_m_of_loc. split; [lia|exact He].
Qed.

Lemma binary_round_aux_rounded (s : bool) (m e : Z) (l : location) :
  0 < m -> emin <= e ->
  Float64.rounded s (binary_round_aux Float64.prec Float64.emax s m e l).
Proof.
  intros Hm He. unfold binary_round_aux.
  destruct (shr_fexp_positive m e l Hm He) as [Hm1 He1].
  destruct (shr_fexp Float64.prec Float64.emax m e l) as [mrs1 e1].
  simpl in Hm1, He1.
  set (m2 := round_nearest_even (shr_m mrs1) (loc_of_shr_record mrs1)).
  assert (Hm2 : 0 < m2).
  { subst m2. unfold round_nearest_even.
    destruct (loc_of_shr_record mrs1) as [|[]]; try lia.
    destruct (Z.even (shr_m mrs1)); lia. }
  destruct (shr_fexp_positive m2 e1 loc_Exact Hm2 He1) as [Hm3 He3].
  destruct (shr_fexp Float64.prec Float64.emax m2 e1 loc_Exact)
    as [mrs3 e3].
  simpl in Hm3, He3.
  destruct (shr_m mrs3) as [|m3|m3]; try lia.
  destruct (e3 <=? Float64.emax - Float64.prec).
  - left. eauto.
  - right. reflexivity.
Qed.

Lemma binary_round_rounded (s : bool) (m : positive) (e : Z) :
  emin <= e ->
  Float64.rounded s (binary_round Float64.prec Float64.emax s m e).
Proof.
  intros He. unfold binary_round, shl_align.
  destruct (fexp Float64.prec Float64.emax (Zpos (digits2_pos m) + e) - e)
    eqn:Hshift;
    apply binary_round_aux_rounded; try lia.
  unfold fexp, SpecFloat.emin, Float64.prec, Float64.emax in *. lia.
Qed.

Lemma add_comm (x y : float) : Float64.add x y = Float64.add y x.
Proof.
  unfold Float64.add, SFadd.
  destruct x as [[]|[]| |sx mx ex], y as [[]|[]| |sy my ey];
    try reflexivity.
  now rewrite (Z.min_comm ey ex), Z.add_comm.
Qed.

Lemma add_above_emin (x y : float) :
  Float64.above_emin x -> Float64.above_emin y ->
  Float64.above_emin (Float64.add x y).
Proof.
  unfold Float64.add, SFadd.
  destruct x as [[]|[]| |sx mx ex], y as [[]|[]| |sy my ey];
    simpl Float64.above_emin; intros Hx Hy; try exact I; try assumption.
  unfold binary_normalize.
  match goal with |- context [match ?m with _ => _ end] => destruct m end.
  - exact I.
  - destruct (binary_round_rounded false p (Z.min ex ey) ltac:(lia))
      as [(m & e & -> & He)| ->]; [exact He|exact I].
  - destruct (binary_round_rounded true p (Z.min ex ey) ltac:(lia))
      as [(m & e & -> & He)| ->]; [exact He|exact I].
Qed.

Lemma add_negative_zero (x y : float) :
  Float64.above_emin x -> Float64.above_emin y ->
  Float64.add x y = S754_zero true ->
  x = S754_zero true /\ y = S754_zero true.
Proof.
  unfold Float64.add, SFadd.
  destruct x as [[]|[]| |sx mx ex], y as [[]|[]| |sy my ey];
    simpl Float64.above_emin; intros Hx Hy; try discriminate; auto.
  unfold binary_normalize.
  match goal with |- context [match ?m with _ => _ end] => destruct m end.
  - discriminate.
  - destruct (binary_round_rounded false p (Z.min ex ey) ltac:(lia))
      as [(m & e & -> & He)| ->]; discriminate.
  - destruct (binary_round_rounded true p (Z.min ex ey) ltac:(lia))
      as [(m & e & -> & He)| ->]; discriminate.
Qed.

Lemma valid_above_emin (x : float) : Float64.valid x -> Float64.above_emin x.
Proof.
  unfold Float64.valid. destruct x as [| | |s m e]; simpl; try (intros; exact I).
  unfold bounded, canonical_mantissa. intros H.
  apply andb_prop in H. destruct H as [H _]. apply Z.eqb_eq in H.
  unfold fexp, SpecFloat.emin, Float64.prec, Float64.emax in *. lia.
Qed.

End Rounding.

(** ** The reported deferred balance *)

Section Reported.

Lemma add_zero_or_zero (x : float) :
  Float64.add Float64.zero (Float64.or_zero x)
  = Float64.add Float64.zero x.
Proof. destruct x as [[]| | |]; reflexivity. Qed.

Lemma add_zero_l (x : float) :
  x <> S754_zero true -> Float64.add Float64.zero x = x.
Proof. destruct x as [[]| | |]; try reflexivity. congruence. Qed.

(** The unbilled balance [balance] put behind the invoices already summed
    gives what it gave in front of them. *)
Lemma carried_over (balance : float) (sum : option float) :
  Float64.above_emin balance ->
  (forall s, sum = Some s -> Float64.above_emin s) ->
  Float64.add Float64.zero
    (Float64.or_zero
       (match sum with Some s => Float64.add s balance | None => balance end))
  = Float64.add balance
      (match sum with Some s => Float64.or_zero s | None => Float64.zero end).
Proof.
  intros Hbalance Hsum. rewrite add_zero_or_zero.
  destruct sum as [s|]; [|apply add_comm].
  specialize (Hsum s eq_refl).
  unfold Float64.or_zero. destruct (Float64.is_zero s) eqn:Hzero.
  - destruct s as [zs| | |]; try discriminate.
    destruct balance as [zb| | |]; [|apply add_comm..].
    destruct zs, zb; reflexivity.
  - rewrite (add_comm balance s). apply add_zero_l.
    intros Hneg.
    destruct (add_negative_zero s balance Hsum Hbalance Hneg) as [-> _].
    discriminate.
Qed.

Lemma fold_add_above_emin (xs : list float) (x : float) :
  Float64.above_emin x ->
  Forall Float64.above_emin xs ->
  Float64.above_emin (List.fold_left Float64.add xs x).
Proof.
  revert x. induction xs as [|y ys IH]; intros x Hx Hxs; [exact Hx|].
  simpl. inversion Hxs; subst. apply IH; [|assumption].
  now apply add_above_emin.
Qed.

Lemma sql_sum_above_emin (xs : list float) (s : float) :
  Forall Float64.above_emin xs ->
  sql_sum xs = Some s -> Float64.above_emin s.
Proof.
  destruct xs as [|x xs]; [discriminate|].
  intros Hxs Hs. simpl in Hs. injection Hs as <-.
  inversion Hxs; subst. now apply fold_add_above_emin.
Qed.

Lemma sql_sum_snoc (xs : list float) (x : float) :
  sql_sum (xs ++ [x])
  = Some (match sql_sum xs with
          | Some s => Float64.add s x
          | None => x
          end).
Proof.
  destruct xs as [|y ys]; [reflexivity|].
  simpl. now rewrite List.fold_left_app.
Qed.

Lemma valid_amounts_above_emin (db : DB) (user_id : uuid) (user : User.t) :
  get_user db user_id = Some user ->
  valid_amounts db user_id = true ->
  Float64.above_emin (User.deferred_payment_balance user)
  /\ Forall Float64.above_emin
       (List.map DeferredPayment.total_amount (unpaid_invoices db user_id)).
Proof.
  intros Huser Hvalid. unfold valid_amounts in Hvalid. rewrite Huser in Hvalid.
  apply andb_prop in Hvalid. destruct Hvalid as [Hbalance Hrows].
  split; [now apply valid_above_emin|].
  induction (unpaid_invoices db user_id) as [|inv rows IH];
    [constructor|].
  simpl in Hrows. apply andb_prop in Hrows. destruct Hrows as [Hinv Hrows].
  constructor; [now apply valid_above_emin|exact (IH Hrows)].
Qed.

(** The invoices summed for an account, after each operation. *)
Lemma unpaid_invoices_generated (db : DB) (user_id : uuid) (user : User.t)
    (invoice : DeferredPayment.t) :
  DeferredPayment.user_id invoice = user_id ->
  is_unpaid invoice = true ->
  unpaid_invoices (add_invoice (put_user db user_id user) invoice) user_id
  = unpaid_invoices db user_id ++ [invoice].
Proof.
  intros Howner Hunpaid. unfold unpaid_invoices. simpl.
  rewrite List.filter_app. simpl.
  now rewrite Howner, Z.eqb_refl, Hunpaid.
Qed.

Lemma unpaid_invoices_paid (db : DB) (invoice : DeferredPayment.t)
    (txn : CreditTransaction.t) (user_id : uuid) :
  is_unpaid invoice = false ->
  unpaid_invoices (add_transaction (put_invoice db invoice) txn) user_id
  = List.filter
      (fun row =>
         negb (DeferredPayment.id row =? DeferredPayment.id invoice))
      (unpaid_invoices db user_id).
Proof.
  intros Hpaid. unfold unpaid_invoices. simpl.
  induction (invoices db) as [|row rows IH]; [reflexivity|].
  simpl. rewrite IH.
  destruct (DeferredPayment.id row =? DeferredPayment.id invoice) eqn:Hkey.
  - rewrite Hpaid, andb_false_r.
    destruct ((DeferredPayment.user_id row =? user_id) && is_unpaid row);
      [simpl; now rewrite Hkey|reflexivity].
  - destruct ((DeferredPayment.user_id row =? user_id) && is_unpaid row);
      [simpl; now rewrite Hkey|reflexivity].
Qed.

Lemma is_due_unpaid (today : date) (inv : DeferredPayment.t) :
  is_due today inv = true -> is_unpaid inv = true.
Proof.
  unfold is_due, is_unpaid. intros Hdue.
  apply andb_prop in Hdue. destruct Hdue as [-> _]. reflexivity.
Qed.

Lemma unpaid_invoices_swept (settings : Settings) (clock : Clock) (db : DB)
    (user_id : uuid) :
  unpaid_invoices (db_after (check_overdue_invoices settings clock db))
    user_id
  = List.map (swept_row settings (today clock)) (unpaid_invoices db user_id).
Proof.
  unfold unpaid_invoices. rewrite invoices_after_sweep.
  induction (invoices db) as [|row rows IH]; [reflexivity|].
  simpl. rewrite IH.
  assert (Hsame :
            (DeferredPayment.user_id (swept_row settings (today clock) row)
             =? user_id)
            && is_unpaid (swept_row settings (today clock) row)
            = (DeferredPayment.user_id row =? user_id) && is_unpaid row).
  { unfold swept_row. destruct (is_due (today clock) row) eqn:Hdue;
      [|reflexivity].
    rewrite (is_due_unpaid _ _ Hdue). reflexivity. }
  rewrite Hsame.
  destruct ((DeferredPayment.user_id row =? user_id) && is_unpaid row);
    reflexivity.
Qed.

Lemma unpaid_invoices_run_call (settings : Settings) (db db' : DB)
    (call : LedgerCall) (user_id : uuid) :
  run_call settings db call = Some db' ->
  unpaid_invoices db' user_id = unpaid_invoices db user_id.
Proof.
  intros Hrun.
  assert (Hrows : invoices db' = invoices db);
    [|unfold unpaid_invoices; now rewrite Hrows].
  destruct call as [new_id target credits_amount kind method reference meta
                   |clock new_id target service amount resource meta];
    simpl in Hrun.
  - unfold add_credits in Hrun.
    destruct (get_user db target); [|discriminate].
    destruct (Float64.of_Z credits_amount); [|discriminate].
    simpl in Hrun. now injection Hrun as <-.
  - unfold deduct_credits in Hrun.
    destruct (get_user db target) as [owner|]; [|discriminate].
    destruct (Qltb (inject_Z (User.total_credits owner
                              - User.used_credits owner)) amount
              && negb (_is_trial_active clock owner
                       && (User.used_credits owner
                           <? TRIAL_CREDITS settings)));
      [discriminate|].
    simpl in Hrun. now injection Hrun as <-.
Qed.

(** A payment that succeeds has written the paid row and the ledger row. *)
Lemma process_payment_succeeded
    (convert_currency : float -> string -> string -> option float)
    (clock : Clock) (new_id : uuid) (db : DB) (invoice_id : uuid)
    (payment_method payment_reference : string) (amount : float)
    (currency : string) :
  let call :=
    process_payment convert_currency clock new_id db invoice_id
      payment_method payment_reference amount currency in
  succeeded call = true ->
  exists invoice,
    get_invoice db invoice_id = Some invoice
    /\ db_after call
       = add_transaction
           (put_invoice db
              (mark_paid clock payment_method payment_reference invoice))
           (payment_transaction new_id payment_method payment_reference
              invoice).
Proof.
  intros call Hok. subst call. unfold process_payment in *.
  destruct (get_invoice db invoice_id) as [invoice|]; [|discriminate].
  exists invoice. split; [reflexivity|].
  destruct (if negb (String.eqb currency (DeferredPayment.currency invoice))
            then convert_currency amount currency
                   (DeferredPayment.currency invoice)
            else Some amount) as [converted|]; [|discriminate].
  destruct (amount_mismatch converted
              (DeferredPayment.total_amount invoice)); [discriminate|].
  reflexivity.
Qed.

End Reported.



(** * Further properties of the service *)

(** ** Debits *)

Lemma Qltb_false (x y : Q) : Qltb x y = false <-> (y <= x)%Q.
Proof.
  unfold Qltb. rewrite negb_false_iff. apply Qle_bool_iff.
Qed.

(** X1. For an existing account, a debit is accepted exactly when its
    amount does not exceed the available credits, or the trial is active and
    fewer than [TRIAL_CREDITS] credits have been used; in the second case
    the credits left may become negative. An accepted debit reports
    [total_credits - used_credits - int(amount)] as remaining. *)
Theorem deduct_credits_accepted
    (settings : Settings) (clock : Clock) (new_id : uuid) (db : DB)
    (user_id : uuid) (user : User.t) (service_type : string) (amount : Q)
    (resource_id : option uuid) (metadata : option (list (string * string))) :
  get_user db user_id = Some user ->
  let available := User.total_credits user - User.used_credits user in
  let call :=
    deduct_credits settings clock new_id db user_id service_type amount
      resource_id metadata in
  (succeeded call = true <->
   (amount <= inject_Z available)%Q
   \/ (_is_trial_active clock user = true
       /\ User.used_credits user < TRIAL_CREDITS settings))
  /\ (forall deducted,
         returned call = inr deducted ->
         remaining_credits deducted = available - int_of_decimal amount
         /\ credits_deducted deducted = amount).
Proof.
  intros Huser available call. subst call. unfold deduct_credits.
  rewrite Huser. fold available.
  set (refused :=
         Qltb (inject_Z available) amount
         && negb (_is_trial_active clock user
                  && (User.used_credits user <? TRIAL_CREDITS settings))).
  assert (Hrefused :
            refused = false <->
            (amount <= inject_Z available)%Q
            \/ (_is_trial_active clock user = true
                /\ User.used_credits user < TRIAL_CREDITS settings)).
  { subst refused.
    rewrite andb_false_iff, negb_false_iff, andb_true_iff, Qltb_false,
      Z.ltb_lt.
    reflexivity. }
  destruct refused.
  - split; [|intros deducted Hd; discriminate Hd].
    split; [discriminate|].
    intros Hcond. apply Hrefused in Hcond. discriminate Hcond.
  - split.
    + split; [intros _; now apply Hrefused|reflexivity].
    + intros deducted Hd. simpl in Hd. injection Hd as <-. simpl.
      split; [subst available; lia|reflexivity].
Qed.

Lemma deduct_credits_accepted_witness :
  let call :=
    deduct_credits default_settings (Sample.at_day 18990) 7 Sample.in_trial
      1 "face_processing" 500 None None in
  succeeded call = true
  /\ forall deducted,
       returned call = inr deducted ->
       remaining_credits deducted = (1000 - 999) - 500
       /\ credits_deducted deducted = 500%Q.
Proof.
  intros call.
  destruct (deduct_credits_accepted default_settings (Sample.at_day 18990) 7
              Sample.in_trial 1 (Sample.account 1000 999 Float64.zero)
              "face_processing" 500 None None eq_refl) as [Hiff Hleft].
  split; [|exact Hleft].
  apply Hiff. right. split; [reflexivity|reflexivity].
Defined.

Lemma int_of_decimal_bounds (a : Q) :
  (0 <= a)%Q ->
  (inject_Z (int_of_decimal a) <= a)%Q
  /\ (a < inject_Z (int_of_decimal a + 1))%Q.
Proof.
  destruct a as [n d]. unfold int_of_decimal, Qle, Qlt. simpl.
  intros Hn. rewrite Z.mul_1_r in Hn.
  rewrite Z.quot_div_nonneg by lia. rewrite !Z.mul_1_r.
  pose proof (Z.mul_div_le n (Zpos d) ltac:(lia)).
  pose proof (Z.mul_succ_div_gt n (Zpos d) ltac:(lia)).
  split; lia.
Qed.

(** X2. An accepted debit of a non-negative amount [a] raises
    [used_credits] by the whole number [k] with [k <= a < k + 1]: the
    fraction of the amount is not counted, and an amount below 1 uses no
    credit at all. *)
Theorem deduct_credits_whole_credits
    (settings : Settings) (clock : Clock) (new_id : uuid) (db : DB)
    (user_id : uuid) (user : User.t) (service_type : string) (amount : Q)
    (resource_id : option uuid) (metadata : option (list (string * string))) :
  get_user db user_id = Some user ->
  (0 <= amount)%Q ->
  let call :=
    deduct_credits settings clock new_id db user_id service_type amount
      resource_id metadata in
  succeeded call = true ->
  exists user',
    get_user (db_after call) user_id = Some user'
    /\ (inject_Z (User.used_credits user' - User.used_credits user)
        <= amount)%Q
    /\ (amount
        < inject_Z (User.used_credits user' - User.used_credits user + 1))%Q
    /\ ((amount < 1)%Q -> User.used_credits user' = User.used_credits user).
Proof.
  intros Huser Hamount call Hok. subst call. unfold deduct_credits in *.
  rewrite Huser in *.
  destruct (Qltb (inject_Z (User.total_credits user
                            - User.used_credits user)) amount
            && negb (_is_trial_active clock user
                     && (User.used_credits user
                         <? TRIAL_CREDITS settings)));
    [discriminate|].
  eexists. split; [apply lookup_insert_eq|]. simpl.
  replace (User.used_credits user + int_of_decimal amount
           - User.used_credits user)
    with (int_of_decimal amount) by lia.
  destruct (int_of_decimal_bounds amount Hamount) as [Hlow Hhigh].
  split; [exact Hlow|]. split; [exact Hhigh|].
  intros Hsmall.
  assert (Hk : int_of_decimal amount <= 0).
  { destruct (Z_le_gt_dec (int_of_decimal amount) 0) as [|Hgt]; [assumption|].
    exfalso. apply (Qlt_not_le _ _ Hsmall).
    apply Qle_trans with (inject_Z (int_of_decimal amount)); [|exact Hlow].
    change 1%Q with (inject_Z 1). rewrite <- Zle_Qle. lia. }
  assert (Hk' : 0 <= int_of_decimal amount).
  { destruct (Z_le_gt_dec 0 (int_of_decimal amount)) as [|Hgt]; [assumption|].
    exfalso. apply (Qlt_not_le _ _ Hhigh).
    apply Qle_trans with 0%Q; [|exact Hamount].
    change 0%Q with (inject_Z 0). rewrite <- Zle_Qle. lia. }
  lia.
Qed.

Lemma deduct_credits_whole_credits_witness :
  let before := Sample.db_of (Sample.account 1000 10 Float64.zero) [] in
  let call :=
    deduct_credits default_settings Sample.clock 7 before 1
      "voice_processing" (1 # 2) None None in
  exists user',
    get_user (db_after call) 1 = Some user'
    /\ User.used_credits user' = 10.
Proof.
  intros before call.
  destruct (deduct_credits_whole_credits default_settings Sample.clock 7
              before 1 (Sample.account 1000 10 Float64.zero)
              "voice_processing" (1 # 2) None None eq_refl
              ltac:(discriminate) eq_refl)
    as (user' & Huser' & _ & _ & Hsame).
  exists user'. split; [exact Huser'|]. apply Hsame. reflexivity.
Defined.

(** ** Calls that fail *)



(** ** Payments in another currency, exact payments, NaN *)

(** X4. A payment in a currency other than the invoice's is the payment of
    the converted amount in the invoice's currency; when the conversion
    raises, the call fails and nothing is written. *)
Theorem process_payment_converts
    (convert_currency : float -> string -> string -> option float)
    (clock : Clock) (new_id : uuid) (db : DB) (invoice_id : uuid)
    (payment_method payment_reference : string) (amount : float)
    (currency : string) (invoice : DeferredPayment.t) :
  get_invoice db invoice_id = Some invoice ->
  currency <> DeferredPayment.currency invoice ->
  process_payment convert_currency clock new_id db invoice_id payment_method
    payment_reference amount currency
  = match convert_currency amount currency
            (DeferredPayment.currency invoice) with
    | Some converted =>
        process_payment convert_currency clock new_id db invoice_id
          payment_method payment_reference converted
          (DeferredPayment.currency invoice)
    | None => {| returned := inl Raised; db_after := db; mails := [] |}
    end.
Proof.
  intros Hget Hother. unfold process_payment. rewrite Hget.
  rewrite (proj2 (String.eqb_neq _ _) Hother), String.eqb_refl. simpl.
  destruct (convert_currency amount currency
              (DeferredPayment.currency invoice)); reflexivity.
Qed.

Lemma process_payment_converts_witness :
  let call :=
    process_payment Sample.euro_rate Sample.clock 11 Sample.billed 5
      "card" "ch_1" (Float64.of_Q 80) "EUR" in
  succeeded call = true
  /\ option_map DeferredPayment.status (get_invoice (db_after call) 5)
     = Some "paid".
Proof.
  intros call. subst call.
  rewrite (process_payment_converts Sample.euro_rate Sample.clock 11
             Sample.billed 5 "card" "ch_1" (Float64.of_Q 80) "EUR"
             (Sample.invoice (Float64.of_Q 100) "pending" 19990)
             eq_refl ltac:(discriminate)).
  vm_compute. split; reflexivity.
Defined.

Lemma amount_mismatch_same (x : float) : amount_mismatch x x = false.
Proof.
  destruct x as [[]|[]| |s m e]; try reflexivity.
  unfold amount_mismatch, Float64.sub, SFsub.
  rewrite Z.min_id. unfold shl_align. rewrite !Z.sub_diag.
  reflexivity.
Qed.

(** X5. A payment of exactly the invoice's [total_amount], in the invoice's
    currency, is accepted for every invoice, whatever float the total is:
    the invoice is marked paid and one payment row of that amount is added
    to the ledger. *)
Theorem process_payment_exact_amount
    (convert_currency : float -> string -> string -> option float)
    (clock : Clock) (new_id : uuid) (db : DB) (invoice_id : uuid)
    (payment_method payment_reference : string)
    (invoice : DeferredPayment.t) :
  get_invoice db invoice_id = Some invoice ->
  let call :=
    process_payment convert_currency clock new_id db invoice_id
      payment_method payment_reference
      (DeferredPayment.total_amount invoice)
      (DeferredPayment.currency invoice) in
  succeeded call = true
  /\ (exists invoice',
         get_invoice (db_after call) invoice_id = Some invoice'
         /\ DeferredPayment.status invoice' = "paid"
         /\ DeferredPayment.total_amount invoice'
            = DeferredPayment.total_amount invoice)
  /\ (exists payment,
         transactions (db_after call) = transactions db ++ [payment]
         /\ CreditTransaction.transaction_type payment = "payment"
         /\ CreditTransaction.amount payment
            = DeferredPayment.total_amount invoice).
Proof.
  intros Hget call.
  destruct (process_payment_accepts convert_currency clock new_id db
              invoice_id payment_method payment_reference
              (DeferredPayment.total_amount invoice) invoice Hget
              (amount_mismatch_same _)) as (Hok & Hrow & Hledger & _).
  split; [exact Hok|]. split.
  - eexists. split; [exact Hrow|]. split; reflexivity.
  - eexists. split; [exact Hledger|]. split; reflexivity.
Qed.

Lemma process_payment_exact_amount_witness :
  succeeded (process_payment Sample.no_conversion Sample.clock 11
               Sample.small_bill 5 "card" "ch_1" (Float64.of_Q (9999 # 100))
               "USD")
  = true.
Proof.
  exact (proj1 (process_payment_exact_amount Sample.no_conversion
                  Sample.clock 11 Sample.small_bill 5 "card" "ch_1"
                  (Sample.invoice (Float64.of_Q (9999 # 100)) "pending"
                     20010)
                  eq_refl)).
Defined.

(** X6. The amount test lets NaN through: [abs(nan - total) > 0.01] is
    false, so a payment whose amount is NaN, in the invoice's currency, is
    accepted for every invoice and marks it paid. *)
Theorem process_payment_nan_accepted
    (convert_currency : float -> string -> string -> option float)
    (clock : Clock) (new_id : uuid) (db : DB) (invoice_id : uuid)
    (payment_method payment_reference : string)
    (invoice : DeferredPayment.t) :
  get_invoice db invoice_id = Some invoice ->
  let call :=
    process_payment convert_currency clock new_id db invoice_id
      payment_method payment_reference S754_nan
      (DeferredPayment.currency invoice) in
  succeeded call = true
  /\ exists invoice',
       get_invoice (db_after call) invoice_id = Some invoice'
       /\ DeferredPayment.status invoice' = "paid".
Proof.
  intros Hget call.
  assert (Hnan : amount_mismatch S754_nan
                   (DeferredPayment.total_amount invoice) = false)
    by (destruct (DeferredPayment.total_amount invoice); reflexivity).
  destruct (process_payment_accepts convert_currency clock new_id db
              invoice_id payment_method payment_reference S754_nan invoice
              Hget Hnan) as (Hok & Hrow & _).
  split; [exact Hok|]. eexists. split; [exact Hrow|reflexivity].
Qed.

Lemma process_payment_nan_accepted_witness :
  succeeded (process_payment Sample.no_conversion Sample.clock 11
               Sample.small_bill 5 "card" "ch_1" S754_nan "USD")
  = true.
Proof.
  exact (proj1 (process_payment_nan_accepted Sample.no_conversion
                  Sample.clock 11 Sample.small_bill 5 "card" "ch_1"
                  (Sample.invoice (Float64.of_Q (9999 # 100)) "pending"
                     20010)
                  eq_refl)).
Defined.

(** ** What a sweep writes and what it leaves *)

(** X7. A sweep writes to no user and to no ledger row, and it adds,
    removes or reorders no invoice. Of an invoice it never changes the key,
    the owner, the number, the currency or the due date; and an invoice that
    is not pending, or whose due date is today or later, is left exactly as
    it is. *)
Theorem check_overdue_invoices_frame
    (settings : Settings) (clock : Clock) (db : DB) :
  let after := db_after (check_overdue_invoices settings clock db) in
  users after = users db
  /\ transactions after = transactions db
  /\ length (invoices after) = length (invoices db)
  /\ forall (i : nat) (row : DeferredPayment.t),
       invoices db !! i = Some row ->
       (exists row',
           invoices after !! i = Some row'
           /\ DeferredPayment.id row' = DeferredPayment.id row
           /\ DeferredPayment.user_id row' = DeferredPayment.user_id row
           /\ DeferredPayment.invoice_number row'
              = DeferredPayment.invoice_number row
           /\ DeferredPayment.currency row' = DeferredPayment.currency row
           /\ DeferredPayment.payment_due_date row'
              = DeferredPayment.payment_due_date row)
       /\ (DeferredPayment.status row <> "pending"
           \/ today clock <= DeferredPayment.payment_due_date row ->
           invoices after !! i = Some row).
Proof.
  intros after. subst after.
  split; [reflexivity|]. split; [reflexivity|].
  rewrite invoices_after_sweep. split; [apply length_map|].
  intros i row Hrow. rewrite list_lookup_fmap, Hrow. simpl. split.
  - eexists. split; [reflexivity|]. unfold swept_row.
    destruct (is_due (today clock) row); repeat split.
  - intros Hskip. unfold swept_row.
    assert (Hdue : is_due (today clock) row = false).
    { destruct Hskip as [Hst|Hlate].
      - now apply is_due_not_pending.
      - unfold is_due. apply andb_false_intro2. apply Z.ltb_ge. exact Hlate. }
    now rewrite Hdue.
Qed.

(** X8. An invoice that is pending when a sweep finds it 1 to 7 days past
    its due date is marked overdue with that number of overdue days, and is
    charged nothing: its total and its late fee stay as they were. The late
    fee starts on the eighth day. *)
Theorem check_overdue_invoices_first_week
    (settings : Settings) (clock : Clock) (db : DB) (i : nat)
    (invoice : DeferredPayment.t) :
  invoices db !! i = Some invoice ->
  DeferredPayment.status invoice = "pending" ->
  DeferredPayment.payment_due_date invoice < today clock
    <= DeferredPayment.payment_due_date invoice + 7 ->
  exists row,
    invoices (db_after (check_overdue_invoices settings clock db)) !! i
    = Some row
    /\ DeferredPayment.status row = "overdue"
    /\ DeferredPayment.is_overdue row = true
    /\ DeferredPayment.overdue_days row
       = today clock - DeferredPayment.payment_due_date invoice
    /\ DeferredPayment.total_amount row
       = DeferredPayment.total_amount invoice
    /\ DeferredPayment.late_fee row = DeferredPayment.late_fee invoice.
Proof.
  intros Hrow Hpending [Hpast Hweek].
  rewrite invoices_after_sweep, list_lookup_fmap, Hrow. simpl.
  eexists. split; [reflexivity|]. unfold swept_row.
  rewrite (is_due_pending _ _ Hpending), (proj2 (Z.ltb_lt _ _) Hpast).
  unfold sweep_invoice. simpl.
  assert (Hfree :
            (7 <? today clock - DeferredPayment.payment_due_date invoice)
            = false) by (apply Z.ltb_ge; lia).
  rewrite Hfree. repeat split.
Qed.

Lemma check_overdue_invoices_first_week_witness :
  exists row,
    invoices
      (db_after (check_overdue_invoices default_settings
                   (Sample.at_day 19997) Sample.billed)) !! 0%nat
    = Some row
    /\ DeferredPayment.status row = "overdue"
    /\ DeferredPayment.is_overdue row = true
    /\ DeferredPayment.overdue_days row = 7
    /\ DeferredPayment.total_amount row = Float64.of_Q 100
    /\ DeferredPayment.late_fee row = Float64.zero.
Proof.
  exact (check_overdue_invoices_first_week default_settings
           (Sample.at_day 19997) Sample.billed 0
           (Sample.invoice (Float64.of_Q 100) "pending" 19990)
           eq_refl eq_refl ltac:(simpl; lia)).
Defined.


(** ** Invoices: periods, repetition, survival, settlement *)

(** What a successful [generate_deferred_invoice] has written. *)
Lemma generate_deferred_invoice_succeeded
    (settings : Settings) (clock : Clock) (new_id : uuid)
    (invoice_number : string) (db : DB) (user_id : uuid)
    (period_start period_end : option date) :
  let call :=
    generate_deferred_invoice settings clock new_id invoice_number db
      user_id period_start period_end in
  succeeded call = true ->
  exists user user' invoice,
    get_user db user_id = Some user
    /\ db_after call = add_invoice (put_user db user_id user') invoice
    /\ User.deferred_payment_balance user' = Float64.zero
    /\ User.last_payment_date user' = User.last_payment_date user
    /\ User.trial_end_date user' = User.trial_end_date user
    /\ User.created_at user' = User.created_at user
    /\ DeferredPayment.id invoice = new_id
    /\ DeferredPayment.user_id invoice = user_id
    /\ DeferredPayment.status invoice = "pending"
    /\ DeferredPayment.total_amount invoice
       = User.deferred_payment_balance user
    /\ DeferredPayment.currency invoice = DEFAULT_CURRENCY settings
    /\ (DeferredPayment.billing_period_start invoice,
        DeferredPayment.billing_period_end invoice)
       = requested_period clock user period_start period_end
    /\ DeferredPayment.payment_due_date invoice
       = snd (requested_period clock user period_start period_end)
         + DEFERRED_PAYMENT_GRACE_DAYS settings
    /\ Float64.is_nan (MIN_DEFERRED_AMOUNT settings) = false
    /\ exists invoiced,
         returned call = inr invoiced
         /\ invoiced_id invoiced = new_id
         /\ invoiced_amount invoiced = User.deferred_payment_balance user
         /\ invoiced_due_date invoiced
            = DeferredPayment.payment_due_date invoice.
Proof.
  intros call Hok. subst call. unfold generate_deferred_invoice in *.
  destruct (get_user db user_id) as [user|]; [|discriminate].
  destruct (requested_period clock user period_start period_end)
    as [first last] eqn:Hperiod.
  destruct (Float64.is_nan (User.deferred_payment_balance user)) eqn:Hnan;
    [discriminate|].
  destruct (Float64.is_nan (MIN_DEFERRED_AMOUNT settings)) eqn:Hmin;
    [discriminate|].
  simpl in Hok |- *.
  destruct (Float64.ltb (User.deferred_payment_balance user)
              (MIN_DEFERRED_AMOUNT settings)); [discriminate|].
  exists user. eexists. eexists.
  split; [reflexivity|]. split; [reflexivity|].
  rewrite Hperiod. repeat split; try assumption.
  eexists. repeat split.
Qed.

Lemma generate_deferred_invoice_refused
    (settings : Settings) (clock : Clock) (new_id : uuid)
    (invoice_number : string) (db : DB) (user_id : uuid)
    (period_start period_end : option date) (error : BillingError) :
  let call :=
    generate_deferred_invoice settings clock new_id invoice_number db
      user_id period_start period_end in
  returned call = inl error -> db_after call = db /\ mails call = [].
Proof.
  intros call. subst call. unfold generate_deferred_invoice.
  destruct (get_user db user_id) as [user|]; [|now split].
  destruct (requested_period clock user period_start period_end).
  destruct (Float64.is_nan _ || Float64.is_nan _); [now split|].
  destruct (Float64.ltb _ _); [now split|discriminate].
Qed.

(** X10. With a positive minimum, the call that directly follows a
    successful [generate_deferred_invoice] for the same account fails with
    "Minimum amount not reached" and a current balance of 0.0, whatever its
    clock and the period it asks for, and writes nothing: the first call has
    set the balance to 0.0. *)
Theorem generate_deferred_invoice_twice
    (settings : Settings) (clock clock' : Clock) (new_id new_id' : uuid)
    (invoice_number invoice_number' : string) (db : DB) (user_id : uuid)
    (period_start period_end period_start' period_end' : option date) :
  Float64.ltb Float64.zero (MIN_DEFERRED_AMOUNT settings) = true ->
  let first :=
    generate_deferred_invoice settings clock new_id invoice_number db
      user_id period_start period_end in
  succeeded first = true ->
  let second :=
    generate_deferred_invoice settings clock' new_id' invoice_number'
      (db_after first) user_id period_start' period_end' in
  returned second = inl (MinimumNotReached Float64.zero)
  /\ db_after second = db_after first.
Proof.
  intros Hmin first Hok second.
  destruct (generate_deferred_invoice_succeeded settings clock new_id
              invoice_number db user_id period_start period_end Hok)
    as (user & user' & invoice & _ & Hafter & Hzero & _).
  subst second first. rewrite Hafter.
  unfold generate_deferred_invoice.
  change (get_user (add_invoice (put_user db user_id user') invoice)
            user_id)
    with (get_user (put_user db user_id user') user_id).
  rewrite get_user_put_user, Hzero.
  destruct (requested_period clock' user' period_start' period_end').
  destruct (ltb_true_not_nan _ _ Hmin) as [_ ->].
  simpl. rewrite Hmin. split; reflexivity.
Qed.

Lemma generate_deferred_invoice_twice_witness :
  let first :=
    generate_deferred_invoice default_settings Sample.clock 6
      "INV-20240201000000-654321" Sample.owing 1 None None in
  returned (generate_deferred_invoice default_settings
              (Sample.at_day 20030) 8 "INV-20240301000000-222222"
              (db_after first) 1 None None)
  = inl (MinimumNotReached Float64.zero).
Proof.
  intros first.
  exact (proj1 (generate_deferred_invoice_twice default_settings
                  Sample.clock (Sample.at_day 20030) 6 8
                  "INV-20240201000000-654321" "INV-20240301000000-222222"
                  Sample.owing 1 None None None None eq_refl eq_refl)).
Defined.

(** X11. A period of which only one end is given is not used: the call
    behaves as if none was given. The period is then the one of the
    account: it starts on the last payment date, or else on the day after
    the trial ends, or else on the day the account was created, and it ends
    yesterday; the invoice is due [DEFERRED_PAYMENT_GRACE_DAYS] days after
    yesterday. *)
Theorem generate_deferred_invoice_default_period
    (settings : Settings) (clock : Clock) (new_id : uuid)
    (invoice_number : string) (db : DB) (user_id : uuid) (given : date) :
  let generate :=
    generate_deferred_invoice settings clock new_id invoice_number db
      user_id in
  generate (Some given) None = generate None None
  /\ generate None (Some given) = generate None None
  /\ forall user,
       get_user db user_id = Some user ->
       succeeded (generate None None) = true ->
       exists invoice,
         invoices (db_after (generate None None)) = invoices db ++ [invoice]
         /\ DeferredPayment.billing_period_start invoice
            = match User.last_payment_date user,
                    User.trial_end_date user with
              | Some paid, _ => paid
              | None, Some trial_end => trial_end + 1
              | None, None => date_of (User.created_at user)
              end
         /\ DeferredPayment.billing_period_end invoice = today clock - 1
         /\ DeferredPayment.payment_due_date invoice
            = today clock - 1 + DEFERRED_PAYMENT_GRACE_DAYS settings.
Proof.
  intros generate. subst generate.
  split; [reflexivity|]. split; [reflexivity|].
  intros user Huser Hok.
  destruct (generate_deferred_invoice_succeeded settings clock new_id
              invoice_number db user_id None None Hok)
    as (owner & user' & invoice & Howner & Hafter & _ & _ & _ & _ & _ & _
        & _ & _ & _ & Hperiod & Hdue & _).
  assert (owner = user) as -> by congruence.
  exists invoice. rewrite Hafter. split; [reflexivity|].
  simpl in Hperiod, Hdue. unfold _calculate_billing_period in Hperiod.
  injection Hperiod as Hstart Hend.
  split; [|split; [exact Hend|exact Hdue]].
  rewrite Hstart. unfold _get_billing_period_start.
  destruct (User.last_payment_date user), (User.trial_end_date user);
    reflexivity.
Qed.

Lemma generate_deferred_invoice_default_period_witness :
  exists invoice,
    invoices (db_after (generate_deferred_invoice default_settings
                          Sample.clock 6 "INV-20240201000000-654321"
                          Sample.owing 1 None None))
    = invoices Sample.owing ++ [invoice]
    /\ DeferredPayment.billing_period_start invoice = 19001
    /\ DeferredPayment.billing_period_end invoice = 19999
    /\ DeferredPayment.payment_due_date invoice = 20006.
Proof.
  exact (proj2 (proj2 (generate_deferred_invoice_default_period
                         default_settings Sample.clock 6
                         "INV-20240201000000-654321" Sample.owing 1 0))
           (Sample.account 2000 13499 (Float64.of_Q 15)) eq_refl eq_refl).
Defined.

(** A row whose due date no sweep day has passed is out of reach of those
    sweeps. *)
Lemma sweeps_keep_row_until_due (settings : Settings) (clocks : list Clock)
    (db : DB) (i : nat) (inv : DeferredPayment.t) :
  invoices db !! i = Some inv ->
  Forall (fun clock => today clock <= DeferredPayment.payment_due_date inv)
         clocks ->
  invoices (sweeps settings clocks db) !! i = Some inv.
Proof.
  revert db. induction clocks as [|clock clocks IH]; intros db Hrow Hdays.
  - exact Hrow.
  - cbn [sweeps]. inversion Hdays as [|? ? Hday Hrest]; subst.
    apply IH; [|exact Hrest].
    rewrite invoices_after_sweep, list_lookup_fmap, Hrow. simpl.
    unfold swept_row, is_due.
    rewrite (proj2 (Z.ltb_ge _ _) Hday), andb_false_r. reflexivity.
Qed.

(** X12. The invoice that [generate_deferred_invoice] adds is the last row
    of the table, and stays pending, with the amount it was created with,
    through every sweep that runs on or before its due date; the first
    sweep after the due date marks it overdue. *)
Theorem generated_invoice_until_due
    (settings : Settings) (clock : Clock) (new_id : uuid)
    (invoice_number : string) (db : DB) (user_id : uuid)
    (period_start period_end : option date) :
  let call :=
    generate_deferred_invoice settings clock new_id invoice_number db
      user_id period_start period_end in
  succeeded call = true ->
  exists invoice,
    invoices (db_after call) = invoices db ++ [invoice]
    /\ DeferredPayment.status invoice = "pending"
    /\ (forall clocks : list Clock,
           Forall (fun sweep =>
                     today sweep <= DeferredPayment.payment_due_date invoice)
                  clocks ->
           invoices (sweeps settings clocks (db_after call))
             !! length (invoices db)
           = Some invoice)
    /\ (forall late : Clock,
           DeferredPayment.payment_due_date invoice < today late ->
           option_map DeferredPayment.status
             (invoices (db_after (check_overdue_invoices settings late
                                    (db_after call)))
                !! length (invoices db))
           = Some "overdue").
Proof.
  intros call Hok.
  destruct (generate_deferred_invoice_succeeded settings clock new_id
              invoice_number db user_id period_start period_end Hok)
    as (user & user' & invoice & _ & Hafter & _ & _ & _ & _ & _ & _
        & Hpending & _).
  subst call. rewrite Hafter.
  assert (Hlast :
            invoices (add_invoice (put_user db user_id user') invoice)
              !! length (invoices db) = Some invoice).
  { simpl. rewrite lookup_app_r by lia.
    now rewrite Nat.sub_diag. }
  exists invoice. split; [reflexivity|]. split; [exact Hpending|]. split.
  - intros clocks Hdays. now apply sweeps_keep_row_until_due.
  - intros late Hlate.
    rewrite invoices_after_sweep, list_lookup_fmap, Hlast. simpl.
    unfold swept_row.
    rewrite (is_due_pending _ _ Hpending), (proj2 (Z.ltb_lt _ _) Hlate).
    reflexivity.
Qed.

Lemma generated_invoice_until_due_witness :
  let call :=
    generate_deferred_invoice default_settings Sample.clock 6
      "INV-20240201000000-654321" Sample.owing 1 None None in
  exists invoice,
    invoices (db_after call) = invoices Sample.owing ++ [invoice]
    /\ DeferredPayment.status invoice = "pending"
    /\ invoices (sweeps default_settings
                   [Sample.clock; Sample.at_day 20006] (db_after call))
         !! 1%nat
       = Some invoice.
Proof.
  intros call.
  destruct (generated_invoice_until_due default_settings Sample.clock 6
              "INV-20240201000000-654321" Sample.owing 1 None None eq_refl)
    as (invoice & Hrows & Hpending & Hkept & _).
  exists invoice. split; [exact Hrows|]. split; [exact Hpending|].
  apply Hkept.
  assert (Hdue : DeferredPayment.payment_due_date invoice = 20006).
  { apply (f_equal (fun rows => option_map DeferredPayment.payment_due_date
                                  (rows !! 1%nat))) in Hrows.
    vm_compute in Hrows. injection Hrows as Hrows.
    symmetry. exact Hrows. }
  repeat constructor; rewrite Hdue; vm_compute; discriminate.
Defined.

(** ** The endpoint that generates an invoice *)

Section Endpoint.

Import Endpoints.

Context (fromisoformat : string -> option date).


End Endpoint.


(** ** From invoice to payment *)

Lemma find_last_added (rows : list DeferredPayment.t)
    (invoice : DeferredPayment.t) :
  (forall row, In row rows ->
               DeferredPayment.id row <> DeferredPayment.id invoice) ->
  List.find (fun inv => DeferredPayment.id inv =? DeferredPayment.id invoice)
            (rows ++ [invoice])
  = Some invoice.
Proof.
  intros Hfresh. induction rows as [|row rows IH]; simpl.
  - now rewrite Z.eqb_refl.
  - rewrite (proj2 (Z.eqb_neq _ _) (Hfresh row (or_introl eq_refl))).
    apply IH. intros other Hin. apply Hfresh. now right.
Qed.

Lemma filter_other_keys (rows : list DeferredPayment.t) (key : uuid) :
  (forall row, In row rows -> DeferredPayment.id row <> key) ->
  List.filter (fun row => negb (DeferredPayment.id row =? key)) rows = rows.
Proof.
  intros Hfresh. induction rows as [|row rows IH]; [reflexivity|].
  simpl. rewrite (proj2 (Z.eqb_neq _ _) (Hfresh row (or_introl eq_refl))).
  simpl. f_equal. apply IH. intros other Hin. apply Hfresh. now right.
Qed.

(** X14. An invoice generated under a key that no invoice has yet, and then
    paid with exactly the amount and in the currency that the generation
    returned, is settled: the payment is accepted, the account's unpaid
    invoices are those it had before the invoice was generated, and its
    unbilled balance is 0.0. *)
Theorem invoice_settled_by_exact_payment
    (settings : Settings)
    (convert_currency : float -> string -> string -> option float)
    (clock clock' : Clock) (new_id txn_id : uuid) (invoice_number : string)
    (db : DB) (user_id : uuid) (period_start period_end : option date)
    (payment_method payment_reference : string) (invoiced : Invoiced) :
  (forall row, In row (invoices db) -> DeferredPayment.id row <> new_id) ->
  let first :=
    generate_deferred_invoice settings clock new_id invoice_number db
      user_id period_start period_end in
  returned first = inr invoiced ->
  let second :=
    process_payment convert_currency clock' txn_id (db_after first)
      (invoiced_id invoiced) payment_method payment_reference
      (invoiced_amount invoiced) (invoiced_currency invoiced) in
  succeeded second = true
  /\ unpaid_invoices (db_after second) user_id = unpaid_invoices db user_id
  /\ exists user',
       get_user (db_after second) user_id = Some user'
       /\ User.deferred_payment_balance user' = Float64.zero.
Proof.
  intros Hfresh first Hreturned second.
  assert (Hok : succeeded first = true)
    by (unfold succeeded; now rewrite Hreturned).
  destruct (generate_deferred_invoice_succeeded settings clock new_id
              invoice_number db user_id period_start period_end Hok)
    as (user & user' & invoice & _ & Hafter & Hzero & _ & _ & _ & Hid
        & Howner & Hpending & Htotal & Hcurrency & _ & _ & _ & body & Hbody
        & Hbody_id & Hbody_amount & _).
  fold first in Hafter, Hbody. rewrite Hreturned in Hbody.
  injection Hbody as <-.
  assert (Hbody_currency :
            invoiced_currency invoiced = DEFAULT_CURRENCY settings).
  { subst first. revert Hreturned. unfold generate_deferred_invoice.
    destruct (get_user db user_id); [|discriminate].
    destruct (requested_period clock _ period_start period_end).
    destruct (_ || _); [discriminate|].
    destruct (Float64.ltb _ _); [discriminate|].
    simpl. intros H. now injection H as <-. }
  subst second. rewrite Hafter, Hbody_id, Hbody_amount, Hbody_currency.
  rewrite <- Htotal, <- Hcurrency.
  assert (Hget :
            get_invoice (add_invoice (put_user db user_id user') invoice)
              new_id = Some invoice).
  { unfold get_invoice. simpl. rewrite <- Hid.
    apply find_last_added. intros row Hin. rewrite Hid.
    now apply Hfresh. }
  destruct (process_payment_accepts convert_currency clock' txn_id
              (add_invoice (put_user db user_id user') invoice) new_id
              payment_method payment_reference
              (DeferredPayment.total_amount invoice) invoice Hget
              (amount_mismatch_same _)) as (Hpaid & _ & _ & Husers & _).
  split; [exact Hpaid|].
  destruct (process_payment_succeeded convert_currency clock' txn_id
              (add_invoice (put_user db user_id user') invoice) new_id
              payment_method payment_reference
              (DeferredPayment.total_amount invoice)
              (DeferredPayment.currency invoice) Hpaid)
    as (found & Hfound & Hsecond).
  assert (found = invoice) as -> by congruence.
  split.
  - rewrite Hsecond, unpaid_invoices_paid by reflexivity.
    rewrite unpaid_invoices_generated
      by (try exact Howner; unfold is_unpaid; now rewrite Hpending).
    rewrite List.filter_app. simpl. rewrite Z.eqb_refl. simpl.
    rewrite app_nil_r. apply filter_other_keys.
    intros row Hin. rewrite Hid. apply Hfresh.
    unfold unpaid_invoices in Hin. apply List.filter_In in Hin.
    exact (proj1 Hin).
  - exists user'. split; [|exact Hzero].
    unfold get_user. rewrite Husers. apply lookup_insert_eq.
Qed.

Lemma invoice_settled_by_exact_payment_witness :
  let first :=
    generate_deferred_invoice default_settings Sample.clock 6
      "INV-20240201000000-654321" Sample.owing 1 None None in
  exists invoiced,
    returned first = inr invoiced
    /\ let second :=
         process_payment Sample.no_conversion (Sample.at_day 20003) 12
           (db_after first) (invoiced_id invoiced) "card" "ch_9"
           (invoiced_amount invoiced) (invoiced_currency invoiced) in
       succeeded second = true
       /\ unpaid_invoices (db_after second) 1
          = unpaid_invoices Sample.owing 1.
Proof.
  intros first.
  destruct (returned first) as [error|invoiced] eqn:Hreturned;
    [vm_compute in Hreturned; discriminate Hreturned|].
  exists invoiced. split; [reflexivity|].
  assert (Hfresh : forall row,
             In row (invoices Sample.owing) -> DeferredPayment.id row <> 6).
  { intros row [<-|[]]. discriminate. }
  destruct (invoice_settled_by_exact_payment default_settings
              Sample.no_conversion Sample.clock (Sample.at_day 20003) 6 12
              "INV-20240201000000-654321" Sample.owing 1 None None
              "card" "ch_9" invoiced Hfresh Hreturned)
    as (Hok & Hunpaid & _).
  split; [exact Hok|exact Hunpaid].
Defined.

(** ** Invariants of the service *)

Section Invariants.

Context (settings : Settings).

Lemma serve_written (db : DB) (call : ServiceCall) :
  Written settings db (serve settings db call).
Proof.
  destruct call as [[new_id user_id credits_amount kind method reference meta
                    |clock new_id user_id service amount resource meta]
                   |clock new_id number user_id first last
                   |convert clock new_id invoice_id method reference amount
                      currency
                   |clock]; simpl.
  - unfold add_credits.
    destruct (get_user db user_id) as [user|] eqn:Huser; [|constructor].
    destruct (Float64.of_Z credits_amount); [|constructor].
    simpl. eapply written_ledger; [exact Huser| | |].
    + repeat split.
    + reflexivity.
    + unfold credit_delta. simpl. lia.
  - unfold deduct_credits.
    destruct (get_user db user_id) as [user|] eqn:Huser; [|constructor].
    destruct (Qltb _ _ && negb _); [constructor|].
    simpl. eapply written_ledger; [exact Huser| | |].
    + repeat split.
    + reflexivity.
    + unfold credit_delta. simpl. lia.
  - unfold generate_deferred_invoice.
    destruct (get_user db user_id) as [user|] eqn:Huser; [|constructor].
    destruct (requested_period clock user first last).
    destruct (Float64.is_nan _ || Float64.is_nan _); [constructor|].
    destruct (Float64.ltb _ _); [constructor|].
    simpl. eapply written_invoice; [exact Huser| | | |].
    + repeat split.
    + reflexivity.
    + reflexivity.
    + reflexivity.
  - unfold process_payment.
    destruct (get_invoice db invoice_id) as [invoice|]; [|constructor].
    destruct (if negb (String.eqb currency (DeferredPayment.currency invoice))
              then convert amount currency (DeferredPayment.currency invoice)
              else Some amount) as [converted|]; [|constructor].
    destruct (amount_mismatch converted
                (DeferredPayment.total_amount invoice)); [constructor|].
    simpl. apply written_payment; reflexivity.
  - apply written_sweep.
Qed.

Lemma same_account_trans (a b c : User.t) :
  same_account a b -> same_account b c -> same_account a c.
Proof.
  unfold same_account. intros (? & ? & ? & ? & ?) (? & ? & ? & ? & ?).
  repeat split; congruence.
Qed.

Lemma same_account_period (a b : User.t) :
  same_account a b ->
  _get_billing_period_start b = _get_billing_period_start a.
Proof.
  unfold same_account, _get_billing_period_start.
  intros (_ & _ & -> & -> & ->). reflexivity.
Qed.

(** The balance of credits that the ledger does not account for. *)
Lemma written_account (db db' : DB) (user_id : uuid) (user : User.t) :
  Written settings db db' ->
  get_user db user_id = Some user ->
  exists user',
    get_user db' user_id = Some user'
    /\ same_account user user'
    /\ User.total_credits user' - User.used_credits user'
       - sum_credit_delta db' user_id
       = User.total_credits user - User.used_credits user
         - sum_credit_delta db user_id.
Proof.
  intros Hwritten Huser.
  destruct Hwritten
    as [|target owner owner' txn Howner Hsame Htxn Hcredits
        |target owner owner' invoice Howner Hsame Htotal Hused _
        |invoice txn _ Hdelta
        |clock].
  - exists user. split; [exact Huser|]. split; [repeat split|reflexivity].
  - rewrite sum_credit_delta_add, sum_credit_delta_put_user, Htxn.
    destruct (Z.eqb_spec target user_id) as [->|Hne].
    + assert (owner = user) as -> by congruence.
      exists owner'. split; [apply lookup_insert_eq|].
      split; [exact Hsame|lia].
    + exists user. split.
      * unfold get_user. simpl. now rewrite lookup_insert_ne.
      * split; [repeat split|lia].
  - change (sum_credit_delta
              (add_invoice (put_user db target owner') invoice) user_id)
      with (sum_credit_delta db user_id).
    destruct (Z.eqb_spec target user_id) as [->|Hne].
    + assert (owner = user) as -> by congruence.
      exists owner'. split; [apply lookup_insert_eq|].
      split; [exact Hsame|lia].
    + exists user. split.
      * unfold get_user. simpl. now rewrite lookup_insert_ne.
      * split; [repeat split|lia].
  - exists user. split; [exact Huser|]. split; [repeat split|].
    rewrite sum_credit_delta_add, Hdelta.
    change (sum_credit_delta (put_invoice db invoice) user_id)
      with (sum_credit_delta db user_id).
    destruct (CreditTransaction.user_id txn =? user_id); lia.
  - exists user. split; [exact Huser|]. split; [repeat split|reflexivity].
Qed.

Lemma written_invoices (db db' : DB) (i : nat) (row : DeferredPayment.t) :
  Written settings db db' ->
  invoices db !! i = Some row ->
  exists row',
    invoices db' !! i = Some row'
    /\ DeferredPayment.id row' = DeferredPayment.id row
    /\ (DeferredPayment.status row = "paid" ->
        DeferredPayment.status row' = "paid")
    /\ (DeferredPayment.status row <> "pending" ->
        DeferredPayment.status row' <> "pending").
Proof.
  intros Hwritten Hrow.
  destruct Hwritten
    as [|target owner owner' txn _ _ _ _
        |target owner owner' invoice _ _ _ _ _
        |invoice txn Hpaid _
        |clock].
  - exists row. split; [exact Hrow|]. repeat split; auto.
  - exists row. split; [exact Hrow|]. repeat split; auto.
  - exists row. split; [|repeat split; auto].
    simpl. now apply lookup_app_l_Some.
  - simpl. rewrite list_lookup_fmap, Hrow. simpl.
    destruct (Z.eqb_spec (DeferredPayment.id row)
                (DeferredPayment.id invoice)) as [Hkey|_].
    + exists invoice. split; [reflexivity|]. split; [now symmetry|].
      split; [auto|]. intros _. rewrite Hpaid. discriminate.
    + exists row. repeat split; auto.
  - rewrite invoices_after_sweep, list_lookup_fmap, Hrow. simpl.
    unfold swept_row. destruct (is_due (today clock) row) eqn:Hdue.
    + eexists. split; [reflexivity|]. split; [reflexivity|].
      unfold is_due in Hdue. apply andb_prop in Hdue.
      destruct Hdue as [Hpending _]. apply String.eqb_eq in Hpending.
      split; [intros Hpaid; congruence|intros Hnot; contradiction].
    + exists row. repeat split; auto.
Qed.

Lemma written_ledger_grows (db db' : DB) :
  Written settings db db' ->
  exists added,
    transactions db' = transactions db ++ added
    /\ (length added <= 1)%nat.
Proof.
  intros [| | | |].
  - exists []. split; [now rewrite app_nil_r|simpl; lia].
  - eexists [_]. split; [reflexivity|simpl; lia].
  - exists []. split; [simpl; now rewrite app_nil_r|simpl; lia].
  - eexists [_]. split; [reflexivity|simpl; lia].
  - exists []. split; [simpl; now rewrite app_nil_r|simpl; lia].
Qed.

Lemma serve_all_cons (db : DB) (call : ServiceCall)
    (calls : list ServiceCall) :
  serve_all settings db (call :: calls)
  = serve_all settings (serve settings db call) calls.
Proof. reflexivity. Qed.

(** X15. Through any sequence of calls on the service, whether they
    succeed or fail, an account stays in the database and keeps its key,
    its subscription tier, its trial end, its last payment date and its
    creation date: no method writes them. So the start of the account's
    billing period never moves, not even when an invoice is paid, and every
    invoice generated for the default period starts on the same day. *)
Theorem billing_period_start_fixed
    (db : DB) (calls : list ServiceCall) (user_id : uuid) (user : User.t) :
  get_user db user_id = Some user ->
  exists user',
    get_user (serve_all settings db calls) user_id = Some user'
    /\ same_account user user'
    /\ _get_billing_period_start user' = _get_billing_period_start user.
Proof.
  revert db user. induction calls as [|call calls IH]; intros db user Huser.
  - exists user. split; [exact Huser|]. split; [repeat split|reflexivity].
  - rewrite serve_all_cons.
    destruct (written_account db (serve settings db call) user_id user
                (serve_written db call) Huser)
      as (user1 & Huser1 & Hsame1 & _).
    destruct (IH _ user1 Huser1) as (user' & Huser' & Hsame' & _).
    exists user'. split; [exact Huser'|].
    pose proof (same_account_trans _ _ _ Hsame1 Hsame') as Hsame.
    split; [exact Hsame|now apply same_account_period].
Qed.


(** X17. Through any sequence of calls on the service an invoice keeps its
    place in the table and its key, and its status only moves forward: a
    paid invoice stays paid, and an invoice that has left "pending" never
    is pending again. *)
Theorem invoice_status_moves_forward
    (db : DB) (calls : list ServiceCall) (i : nat)
    (row : DeferredPayment.t) :
  invoices db !! i = Some row ->
  exists row',
    invoices (serve_all settings db calls) !! i = Some row'
    /\ DeferredPayment.id row' = DeferredPayment.id row
    /\ (DeferredPayment.status row = "paid" ->
        DeferredPayment.status row' = "paid")
    /\ (DeferredPayment.status row <> "pending" ->
        DeferredPayment.status row' <> "pending").
Proof.
  revert db row. induction calls as [|call calls IH]; intros db row Hrow.
  - exists row. split; [exact Hrow|]. repeat split; auto.
  - rewrite serve_all_cons.
    destruct (written_invoices db (serve settings db call) i row
                (serve_written db call) Hrow)
      as (row1 & Hrow1 & Hid1 & Hpaid1 & Hleft1).
    destruct (IH _ row1 Hrow1) as (row' & Hrow' & Hid' & Hpaid' & Hleft').
    exists row'. split; [exact Hrow'|]. split; [congruence|].
    split; auto.
Qed.

(** X18. The ledger is append-only: through any sequence of calls its
    earlier rows stay as they are, in their order, and each call adds at
    most one row. *)
Theorem ledger_append_only (db : DB) (calls : list ServiceCall) :
  exists added,
    transactions (serve_all settings db calls) = transactions db ++ added
    /\ (length added <= length calls)%nat.
Proof.
  revert db. induction calls as [|call calls IH]; intros db.
  - exists []. split; [now rewrite app_nil_r|reflexivity].
  - rewrite serve_all_cons.
    destruct (written_ledger_grows db (serve settings db call)
                (serve_written db call)) as (first & Hfirst & Hone).
    destruct (IH (serve settings db call)) as (rest & Hrest & Hlen).
    exists (first ++ rest). split.
    + now rewrite Hrest, Hfirst, <- app_assoc.
    + rewrite length_app. simpl. lia.
Qed.

End Invariants.

Lemma billing_period_start_fixed_witness :
  let calls :=
    [Generate Sample.clock 6 "INV-20240201000000-654321" 1 None None;
     Pay Sample.no_conversion (Sample.at_day 20003) 12 6 "card" "ch_9"
       (Float64.of_Q 15) "USD";
     Sweep (Sample.at_day 20020)] in
  exists user',
    get_user (serve_all default_settings Sample.owing calls) 1 = Some user'
    /\ _get_billing_period_start user' = 19001.
Proof.
  intros calls.
  destruct (billing_period_start_fixed default_settings Sample.owing calls 1
              (Sample.account 2000 13499 (Float64.of_Q 15)) eq_refl)
    as (user' & Huser' & _ & Hstart).
  exists user'. split; [exact Huser'|exact Hstart].
Defined.


Lemma invoice_status_moves_forward_witness :
  let calls :=
    [Sweep (Sample.at_day 20020);
     Pay Sample.no_conversion (Sample.at_day 20021) 12 5 "card" "ch_9"
       (Float64.of_Q 100) "USD";
     Generate Sample.clock 6 "INV-20240201000000-654321" 1 None None] in
  exists row',
    invoices (serve_all default_settings Sample.settled calls) !! 0%nat
    = Some row'
    /\ DeferredPayment.id row' = 5
    /\ DeferredPayment.status row' = "paid".
Proof.
  intros calls.
  destruct (invoice_status_moves_forward default_settings Sample.settled
              calls 0 (Sample.invoice (Float64.of_Q 100) "paid" 19990)
              eq_refl)
    as (row' & Hrow' & Hid & Hpaid & _).
  exists row'. split; [exact Hrow'|]. split; [exact Hid|].
  apply Hpaid. reflexivity.
Defined.

(** ** Debits that accrue no debt *)

Lemma same_account_trial (clock : Clock) (a b : User.t) :
  same_account a b -> _is_trial_active clock b = _is_trial_active clock a.
Proof.
  unfold same_account, _is_trial_active. intros (_ & _ & -> & _).
  reflexivity.
Qed.

(** A debit made while the trial is active, and any credit. *)
Lemma ledger_call_deferred (settings : Settings) (db : DB)
    (call : LedgerCall) (user_id : uuid) (user : User.t) :
  get_user db user_id = Some user ->
  exists user',
    get_user (serve settings db (OnLedger call)) user_id = Some user'
    /\ same_account user user'
    /\ (User.subscription_tier user <> "trial"
        \/ match call with
           | Debit clock _ _ _ _ _ _ => _is_trial_active clock user = true
           | Credit _ _ _ _ _ _ _ => True
           end ->
        User.deferred_payment_balance user'
        = User.deferred_payment_balance user).
Proof.
  intros Huser.
  destruct call as [new_id target credits_amount kind method reference meta
                   |clock new_id target service amount resource meta];
    simpl.
  - unfold add_credits.
    destruct (get_user db target) as [owner|] eqn:Howner;
      [|exists user; repeat split; exact Huser].
    destruct (Float64.of_Z credits_amount);
      [|exists user; repeat split; exact Huser].
    simpl. destruct (Z.eqb_spec target user_id) as [->|Hne].
    + assert (owner = user) as -> by congruence.
      eexists. split; [apply lookup_insert_eq|]. repeat split.
    + exists user. split; [|repeat split].
      unfold get_user. simpl. now rewrite lookup_insert_ne.
  - unfold deduct_credits.
    destruct (get_user db target) as [owner|] eqn:Howner;
      [|exists user; repeat split; exact Huser].
    destruct (Qltb _ _ && negb _);
      [exists user; repeat split; exact Huser|].
    simpl. destruct (Z.eqb_spec target user_id) as [->|Hne].
    + assert (owner = user) as -> by congruence.
      eexists. split; [apply lookup_insert_eq|].
      split; [repeat split|]. simpl. intros [Htier|Htrial].
      * destruct (String.eqb_spec (User.subscription_tier user) "trial");
          [contradiction|].
        now rewrite andb_false_r.
      * now rewrite Htrial.
    + exists user. split; [|repeat split].
      unfold get_user. simpl. now rewrite lookup_insert_ne.
Qed.

(** X19. Credits and debits accrue no debt for an account whose
    subscription tier is not "trial", nor for any account while its debits
    are made during its trial: through any sequence of such calls, accepted
    or refused, the account's deferred balance stays what it was. *)
Theorem deferred_balance_untouched
    (settings : Settings) (db : DB) (calls : list LedgerCall)
    (user_id : uuid) (user : User.t) :
  get_user db user_id = Some user ->
  User.subscription_tier user <> "trial"
  \/ Forall (fun call =>
               match call with
               | Debit clock _ _ _ _ _ _ =>
                   _is_trial_active clock user = true
               | Credit _ _ _ _ _ _ _ => True
               end) calls ->
  exists user',
    get_user (serve_all settings db (List.map OnLedger calls)) user_id
    = Some user'
    /\ User.deferred_payment_balance user'
       = User.deferred_payment_balance user.
Proof.
  intros Huser Hquiet.
  assert (Hmain :
    exists user',
      get_user (serve_all settings db (List.map OnLedger calls)) user_id
      = Some user'
      /\ same_account user user'
      /\ User.deferred_payment_balance user'
         = User.deferred_payment_balance user).
  { revert db user Huser Hquiet.
    induction calls as [|call calls IH]; intros db user Huser Hquiet.
    - exists user. split; [exact Huser|]. split; [repeat split|reflexivity].
    - cbn [List.map]. rewrite serve_all_cons.
      destruct (ledger_call_deferred settings db call user_id user Huser)
        as (user1 & Huser1 & Hsame1 & Hkept1).
      assert (Hquiet1 :
        User.subscription_tier user1 <> "trial"
        \/ Forall (fun call =>
                     match call with
                     | Debit clock _ _ _ _ _ _ =>
                         _is_trial_active clock user1 = true
                     | Credit _ _ _ _ _ _ _ => True
                     end) calls).
      { destruct Hquiet as [Htier|Hall].
        - left. destruct Hsame1 as (_ & <- & _). exact Htier.
        - right. inversion Hall as [|? ? _ Hrest]; subst.
          eapply Forall_impl; [exact Hrest|].
          intros [| clock ? ? ? ? ? ?]; [auto|].
          simpl. now rewrite (same_account_trial clock _ _ Hsame1). }
      destruct (IH _ user1 Huser1 Hquiet1)
        as (user' & Huser' & Hsame' & Hkept').
      exists user'. split; [exact Huser'|].
      split; [exact (same_account_trans _ _ _ Hsame1 Hsame')|].
      rewrite Hkept'. apply Hkept1.
      destruct Hquiet as [Htier|Hall]; [now left|right].
      now inversion Hall. }
  destruct Hmain as (user' & Huser' & _ & Hkept).
  exists user'. split; assumption.
Qed.

Lemma deferred_balance_untouched_witness :
  let calls :=
    [Credit 7 1 500 "purchase" (Some "card") (Some "ch_1") None;
     Debit (Sample.at_day 18990) 8 1 "voice_processing" (5 # 2) None None;
     Debit (Sample.at_day 18995) 9 1 "chat_processing" 40 None None] in
  exists user',
    get_user (serve_all default_settings Sample.in_trial
                (List.map OnLedger calls)) 1
    = Some user'
    /\ User.deferred_payment_balance user' = Float64.zero.
Proof.
  intros calls.
  apply (deferred_balance_untouched default_settings Sample.in_trial calls 1
           (Sample.account 1000 999 Float64.zero) eq_refl).
  right. repeat constructor.
Defined.

(** ** Listing the invoices of an account *)

#[local] Instance due_before_total : Total due_before.
Proof. intros a b. unfold due_before. lia. Qed.

#[local] Instance due_before_transitive : Transitive due_before.
Proof. intros a b c. unfold due_before. lia. Qed.

(** X20. [get_outstanding_invoices] returns the invoices of the account,
    all of them when paid invoices are asked for and else those that are
    pending or overdue, each once, and in the order of their due dates,
    earliest first; the invoices of other accounts never appear. *)
Theorem get_outstanding_invoices_listed
    (db : DB) (user_id : uuid) (include_paid : bool) :
  let listing := get_outstanding_invoices db user_id include_paid in
  StronglySorted
    (fun a b => Outstanding.due_date a <= Outstanding.due_date b) listing
  /\ Permutation listing
       (List.map describe
          (List.filter
             (fun inv =>
                (DeferredPayment.user_id inv =? user_id)
                && (include_paid || is_unpaid inv))
             (invoices db)))
  /\ forall entry,
       In entry listing
       <-> exists inv,
             In inv (invoices db)
             /\ DeferredPayment.user_id inv = user_id
             /\ (include_paid = true
                 \/ DeferredPayment.status inv = "pending"
                 \/ DeferredPayment.status inv = "overdue")
             /\ entry = describe inv.
Proof.
  intros listing. subst listing. unfold get_outstanding_invoices.
  set (rows := List.filter (listed user_id include_paid) (invoices db)).
  assert (Hperm : Permutation (List.map describe (merge_sort due_before rows))
                              (List.map describe rows)).
  { apply Permutation_map. apply merge_sort_Permutation. }
  split; [|split; [exact Hperm|]].
  - apply (StronglySorted_fmap describe due_before).
    + intros a b Hab. exact Hab.
    + apply StronglySorted_merge_sort; apply _.
  - intros entry. split.
    + intros Hin. apply (Permutation_in _ Hperm) in Hin.
      apply List.in_map_iff in Hin. destruct Hin as (inv & <- & Hin).
      subst rows. apply List.filter_In in Hin. destruct Hin as [Hin Hlisted].
      unfold listed in Hlisted. apply andb_prop in Hlisted.
      destruct Hlisted as [Howner Hshown]. apply Z.eqb_eq in Howner.
      exists inv. split; [exact Hin|]. split; [exact Howner|].
      split; [|reflexivity].
      apply orb_prop in Hshown. destruct Hshown as [->|Hunpaid];
        [now left|right].
      unfold is_unpaid in Hunpaid. apply orb_prop in Hunpaid.
      destruct Hunpaid as [H|H]; apply String.eqb_eq in H; auto.
    + intros (inv & Hin & Howner & Hshown & ->).
      apply (Permutation_in _ (Permutation_sym Hperm)).
      apply List.in_map. subst rows. apply List.filter_In.
      split; [exact Hin|]. unfold listed.
      rewrite (proj2 (Z.eqb_eq _ _) Howner). simpl.
      destruct Hshown as [->|[Hst|Hst]]; [reflexivity|..];
        unfold is_unpaid; rewrite Hst; simpl; apply orb_true_r.
Qed.

(** ** Cost and quantity *)


Example get_outstanding_invoices_several :
  List.map Outstanding.invoice_number
    (get_outstanding_invoices Sample.several 1 false)
  = ["INV-C"; "INV-B"]
  /\ List.map Outstanding.invoice_number
       (get_outstanding_invoices Sample.several 1 true)
     = ["INV-A"; "INV-C"; "INV-B"].
Proof. vm_compute. split; reflexivity. Qed.

(** ** A debit and the balance read after it *)

(** X22. What an accepted debit returns agrees with what
    [get_user_credits] reads next: the remaining credits are the available
    credits, and the debit's [deferred_balance], which is the unbilled
    balance alone, is the reported one less the unpaid invoices: the
    reported deferred balance is the debit's plus the sum of the account's
    pending and overdue invoices. *)
Theorem deduct_credits_then_get_user_credits
    (settings : Settings) (clock clock' : Clock) (new_id : uuid) (db : DB)
    (user_id : uuid) (service_type : string) (amount : Q)
    (resource_id : option uuid) (metadata : option (list (string * string)))
    (deducted : Deducted) :
  let call :=
    deduct_credits settings clock new_id db user_id service_type amount
      resource_id metadata in
  returned call = inr deducted ->
  exists credits,
    get_user_credits settings clock' (db_after call) user_id = inr credits
    /\ available_credits credits = remaining_credits deducted
    /\ deferred_balance credits
       = Float64.add (deducted_deferred_balance deducted)
           (match sql_sum (List.map DeferredPayment.total_amount
                             (unpaid_invoices db user_id)) with
            | Some s => Float64.or_zero s
            | None => Float64.zero
            end).
Proof.
  intros call Hreturned. subst call. unfold deduct_credits in *.
  destruct (get_user db user_id) as [user|] eqn:Huser; [|discriminate].
  destruct (Qltb _ _ && negb _); [discriminate|].
  simpl in Hreturned. injection Hreturned as <-.
  cbn [db_after]. unfold get_user_credits.
  match goal with
  | |- context [add_transaction (put_user db user_id ?u) ?t] =>
      set (user' := u); set (txn := t)
  end.
  change (get_user (add_transaction (put_user db user_id user') txn) user_id)
    with (get_user (put_user db user_id user') user_id).
  rewrite get_user_put_user.
  eexists. split; [reflexivity|]. split; [reflexivity|].
  cbn [deferred_balance]. unfold _calculate_deferred_balance.
  change (get_user (add_transaction (put_user db user_id user') txn) user_id)
    with (get_user (put_user db user_id user') user_id).
  rewrite get_user_put_user. reflexivity.
Qed.

Lemma deduct_credits_then_get_user_credits_witness :
  let call :=
    deduct_credits default_settings Sample.clock 7 Sample.funded 1
      "chat_processing" 100 None None in
  exists deducted credits,
    returned call = inr deducted
    /\ get_user_credits default_settings Sample.clock (db_after call) 1
       = inr credits
    /\ available_credits credits = remaining_credits deducted
    /\ deducted_deferred_balance deducted = Float64.of_Q 16
    /\ deferred_balance credits = Float64.of_Q (11599 # 100).
Proof.
  intros call.
  destruct (returned call) as [error|deducted] eqn:Hreturned;
    [vm_compute in Hreturned; discriminate Hreturned|].
  destruct (deduct_credits_then_get_user_credits default_settings
              Sample.clock Sample.clock 7 Sample.funded 1 "chat_processing"
              100 None None deducted Hreturned)
    as (credits & Hcredits & Havailable & Hdeferred).
  assert (Hunbilled : deducted_deferred_balance deducted = Float64.of_Q 16).
  { vm_compute in Hreturned. injection Hreturned as <-. reflexivity. }
  exists deducted, credits. split; [reflexivity|]. split; [exact Hcredits|].
  split; [exact Havailable|]. split; [exact Hunbilled|].
  rewrite Hdeferred, Hunbilled. vm_compute. reflexivity.
Defined.

(** ** Sweeps one after the other *)

(** X23. Whatever sweeps run, and in whatever order of days, a pending
    invoice is written by one of them at most: by the first that runs
    after the invoice's due date. The invoice ends as that sweep left it,
    or as it was when no sweep ran after its due date. *)
Theorem sweeps_first_hit
    (settings : Settings) (clocks : list Clock) (db : DB) (i : nat)
    (invoice : DeferredPayment.t) :
  invoices db !! i = Some invoice ->
  DeferredPayment.status invoice = "pending" ->
  invoices (sweeps settings clocks db) !! i
  = Some (match List.find
                  (fun clock =>
                     DeferredPayment.payment_due_date invoice <? today clock)
                  clocks with
          | Some clock => sweep_invoice settings (today clock) invoice
          | None => invoice
          end).
Proof.
  revert db. induction clocks as [|clock clocks IH]; intros db Hrow Hpending.
  - exact Hrow.
  - cbn [sweeps List.find].
    assert (Hstep :
              invoices (db_after (check_overdue_invoices settings clock db))
                !! i
              = Some (swept_row settings (today clock) invoice)).
    { rewrite invoices_after_sweep, list_lookup_fmap, Hrow. reflexivity. }
    unfold swept_row in Hstep.
    rewrite (is_due_pending _ _ Hpending) in Hstep.
    destruct (DeferredPayment.payment_due_date invoice <? today clock).
    + apply sweeps_keep_row; [exact Hstep|]. simpl. discriminate.
    + apply IH; assumption.
Qed.

Lemma sweeps_first_hit_witness :
  Sample.columns
    (sweeps default_settings
       [Sample.at_day 19985; Sample.at_day 20000; Sample.at_day 20025]
       Sample.billed)
  = [("overdue", 10, Float64.of_Q 5, Float64.of_Q 105)].
Proof.
  pose proof (sweeps_first_hit default_settings
                [Sample.at_day 19985; Sample.at_day 20000;
                 Sample.at_day 20025]
                Sample.billed 0
                (Sample.invoice (Float64.of_Q 100) "pending" 19990)
                eq_refl eq_refl) as Hrow.
  unfold Sample.columns.
  destruct (invoices (sweeps default_settings
                        [Sample.at_day 19985; Sample.at_day 20000;
                         Sample.at_day 20025] Sample.billed))
    as [|row [|other rows]] eqn:Hrows;
    try (vm_compute in Hrows; discriminate Hrows).
  simpl in Hrow. injection Hrow as ->. vm_compute. reflexivity.
Defined.
